(** * Cyclic executive and HTTP request parser of [Final_Project/main.c]

    A shallow embedding of the scheduler loop of [main], of the request
    parser [parseRecvBuffer] and of the response writer [getCall].

    The program keeps its state in globals ([protocolState], [apiCall],
    [current_temperature]) and talks to its collaborators (socket, uart,
    watchdog, timer, sensor, log, configuration) through calls whose bodies
    are not part of [main.c].  The globals and the state of the collaborators
    are gathered in one record, [world], threaded through every function.
    Calls that act on a collaborator are appended to [trace], so that the
    order of the calls of one scheduler iteration can be stated.

    The [while] loops of the source have no bound of their own.  Each is a
    [Fixpoint] on a fuel argument counting the passes through the loop body
    it may make; a run that needs more returns [Spin] with the world reached
    so far. *)

From Stdlib Require Import ZArith List String Ascii Bool Lia.
Import ListNotations.

Local Open Scope string_scope.
Local Open Scope Z_scope.

(** ** Constants of [main.c] *)

Definition HTTP_PORT : Z := 8080.
Definition SERVER_SOCKET : Z := 0.

(** FSM states *)
Definition EMPTY : Z := 0.
Definition REQUEST : Z := 1.
Definition HEADER : Z := 2.
Definition END : Z := 3.

(** API calls *)
Definition NONE : Z := 0.
Definition GET : Z := 1.
Definition PUT : Z := 2.
Definition DELETE : Z := 3.

(** [int] of the target is 16 bits wide. *)
Definition INT_MAX : Z := 32767.
Definition INT_MIN : Z := -32768.

(** [i++] on an [int], wrapping at the end of the range. *)
Definition int_incr (i : Z) : Z :=
  if i <? INT_MAX then i + 1 else INT_MIN.

(** Characters that a Rocq string literal cannot hold. *)
Definition CR : ascii := ascii_of_nat 13.
Definition LF : ascii := ascii_of_nat 10.
Definition CRLF : string := String CR (String LF EmptyString).
Definition DQUOTE : string := String (ascii_of_nat 34) EmptyString.

Definition char_text (c : ascii) : string := String c EmptyString.

(** ** The world *)

Inductive conn_state : Type := Closed | Listening | Established.

(** [vpd] of [vpd.h], the fields [getCall] reads. *)
Record vpd_t : Type := mkVpd {
  model : string;
  manufacturer : string;
  serial_number : string;
  manufacture_date : Z;
  mac_address : list Z;
  country_of_origin : string
}.

(** [config] of [config.h], the fields [main] and [getCall] read. *)
Record config_t : Type := mkConfig {
  hi_alarm : Z;
  hi_warn : Z;
  lo_alarm : Z;
  lo_warn : Z
}.

(** One constructor per call that acts on a collaborator. *)
Inductive event : Type :=
  | Ev_wdt_reset
  | Ev_led_update
  | Ev_temp_get
  | Ev_temp_start
  | Ev_delay_set (id ms : Z)
  | Ev_tempfsm_update (t hi_a hi_w lo_a lo_w : Z)
  | Ev_uart_writedec32 (v : Z)
  | Ev_uart_writestr (s : string)
  | Ev_socket_open (s port : Z)
  | Ev_socket_listen (s : Z)
  | Ev_socket_disconnect (s : Z)
  | Ev_socket_recv_compare (s : Z) (str : string)
  | Ev_socket_flush_line (s : Z)
  | Ev_socket_write (s : Z) (bytes : string)
  | Ev_log_update
  | Ev_config_update.

Record world : Type := mkWorld {
  protocolState : Z;            (* unsigned char protocolState *)
  apiCall : Z;                  (* unsigned char apiCall *)
  current_temperature : Z;      (* int current_temperature *)
  rx : list string;             (* complete lines buffered by the socket, oldest first *)
  rx_tail : string;             (* bytes buffered behind them, of a line not yet complete *)
  tx : string;                  (* bytes written to the connection *)
  conn : conn_state;            (* state of the one connection slot *)
  log : list (Z * Z);           (* log records: (time, eventnum) *)
  vpd : vpd_t;
  config : config_t;
  trace : list event            (* calls made so far, oldest first *)
}.

Definition set_protocolState (v : Z) (w : world) : world :=
  mkWorld v (apiCall w) (current_temperature w) (rx w) (rx_tail w) (tx w) (conn w)
          (log w) (vpd w) (config w) (trace w).

Definition set_apiCall (v : Z) (w : world) : world :=
  mkWorld (protocolState w) v (current_temperature w) (rx w) (rx_tail w) (tx w) (conn w)
          (log w) (vpd w) (config w) (trace w).

Definition set_current_temperature (v : Z) (w : world) : world :=
  mkWorld (protocolState w) (apiCall w) v (rx w) (rx_tail w) (tx w) (conn w)
          (log w) (vpd w) (config w) (trace w).

Definition set_rx (v : list string) (w : world) : world :=
  mkWorld (protocolState w) (apiCall w) (current_temperature w) v (rx_tail w) (tx w) (conn w)
          (log w) (vpd w) (config w) (trace w).

Definition set_rx_tail (v : string) (w : world) : world :=
  mkWorld (protocolState w) (apiCall w) (current_temperature w) (rx w) v (tx w) (conn w)
          (log w) (vpd w) (config w) (trace w).

Definition set_tx (v : string) (w : world) : world :=
  mkWorld (protocolState w) (apiCall w) (current_temperature w) (rx w) (rx_tail w) v (conn w)
          (log w) (vpd w) (config w) (trace w).

Definition set_conn (v : conn_state) (w : world) : world :=
  mkWorld (protocolState w) (apiCall w) (current_temperature w) (rx w) (rx_tail w) (tx w) v
          (log w) (vpd w) (config w) (trace w).

Definition set_log (v : list (Z * Z)) (w : world) : world :=
  mkWorld (protocolState w) (apiCall w) (current_temperature w) (rx w) (rx_tail w) (tx w) (conn w)
          v (vpd w) (config w) (trace w).

Definition emit (e : event) (w : world) : world :=
  mkWorld (protocolState w) (apiCall w) (current_temperature w) (rx w) (rx_tail w) (tx w) (conn w)
          (log w) (vpd w) (config w) (trace w ++ [e])%list.

(** ** Results of code that may loop *)

Inductive result : Type :=
  | Done (w : world)   (* the code returned, in world [w] *)
  | Spin (w : world).  (* the fuel ran out inside a loop, in world [w] *)

Definition world_of (r : result) : world :=
  match r with Done w => w | Spin w => w end.

Definition bind (r : result) (k : world -> result) : result :=
  match r with
  | Done w => k w
  | Spin w => Spin w
  end.

Notation "r >>= k" := (bind r k) (at level 58, left associativity).

(** ** Collaborators that only leave a call in the trace *)

Definition wdt_reset (w : world) : world := emit Ev_wdt_reset w.
Definition led_update (w : world) : world := emit Ev_led_update w.
Definition temp_start (w : world) : world := emit Ev_temp_start w.
Definition delay_set (id ms : Z) (w : world) : world := emit (Ev_delay_set id ms) w.
Definition uart_writestr (s : string) (w : world) : world := emit (Ev_uart_writestr s) w.
Definition uart_writedec32 (v : Z) (w : world) : world := emit (Ev_uart_writedec32 v) w.
Definition log_update (w : world) : world := emit Ev_log_update w.
Definition config_update (w : world) : world := emit Ev_config_update w.

(** ** Log store *)

(** Modelled from the spec: [log_get_num_entries] of [log.h] (the spec's
    [entryCount]), the number of records of the ordered log. *)
Definition log_get_num_entries (w : world) : Z := Z.of_nat (List.length (log w)).

(** Modelled from the spec: [log_get_record] of [log.h] (the spec's
    [entryAt]), the [i]-th (timestamp, event code) pair of the log.  The
    caller's two locals are taken as zero where there is no such record. *)
Definition log_get_record (i : Z) (w : world) : Z * Z :=
  nth (Z.to_nat i) (log w) (0, 0).

(** ** Line socket adapter *)

(** Modelled from the spec: [socket_received_line] of [socket.h] (the spec's
    [hasCompleteLine]): a complete input line is buffered. *)
Definition socket_received_line (s : Z) (w : world) : bool :=
  match rx w with
  | [] => false
  | _ :: _ => true
  end.

(** Modelled from the spec: [socket_recv_compare] of [socket.h] (the spec's
    [matchesPrefix], which consumes the line if matched): whether the oldest
    buffered line begins with [str]; a line that matches is consumed. *)
Definition socket_recv_compare (s : Z) (str : string) (w : world) : bool * world :=
  let w := emit (Ev_socket_recv_compare s str) w in
  match rx w with
  | [] => (false, w)
  | l :: ls => if prefix str l then (true, set_rx ls w) else (false, w)
  end.

(** Modelled from the spec: [socket_flush_line] of [socket.h] (the spec's
    [discardLine]): the oldest buffered line is dropped; nothing is dropped
    from an empty buffer. *)
Definition socket_flush_line (s : Z) (w : world) : world :=
  let w := emit (Ev_socket_flush_line s) w in
  set_rx (tl (rx w)) w.

(** Modelled from the spec: [socket_is_blank_line] of [socket.h] (the spec's
    [isBlankLine]): the oldest buffered line is the blank line. *)
Definition socket_is_blank_line (s : Z) (w : world) : bool :=
  match rx w with
  | [] => false
  | l :: _ => String.eqb l ""
  end.

(** Modelled from the spec: [socket_recv_available] of [socket.h] (the
    spec's [bytesAvailable]): the bytes buffered, those of each complete
    line with its two terminating bytes and those of the line not yet
    complete. *)
Definition socket_recv_available (s : Z) (w : world) : Z :=
  fold_right (fun l n => Z.of_nat (String.length l) + 2 + n) 0 (rx w) +
  Z.of_nat (String.length (rx_tail w)).

(** Modelled from the spec: [socket_writestr] of [socket.h] (the spec's
    [writeText]): the text goes out as it is. *)
Definition socket_writestr (s : Z) (str : string) (w : world) : world :=
  let w := emit (Ev_socket_write s str) w in
  set_tx (tx w ++ str)%string w.

(** Modelled from the spec: [socket_writechar] of [socket.h] (the spec's
    [writeRaw]): one byte goes out. *)
Definition socket_writechar (s : Z) (c : ascii) (w : world) : world :=
  let w := emit (Ev_socket_write s (char_text c)) w in
  set_tx (tx w ++ char_text c)%string w.

(** Modelled from the spec: [socket_writequotedstring] of [socket.h]: the
    text goes out between two double quotes. *)
Definition socket_writequotedstring (s : Z) (str : string) (w : world) : world :=
  let w := emit (Ev_socket_write s (DQUOTE ++ str ++ DQUOTE)%string) w in
  set_tx (tx w ++ (DQUOTE ++ str ++ DQUOTE))%string w.

(** Modelled from the spec: the connection states of the adapter (the
    spec's [connectionState]). *)
Definition socket_is_closed (s : Z) (w : world) : bool :=
  match conn w with Closed => true | _ => false end.

Definition socket_is_listening (s : Z) (w : world) : bool :=
  match conn w with Listening => true | _ => false end.

Definition socket_is_established (s : Z) (w : world) : bool :=
  match conn w with Established => true | _ => false end.

(** Modelled from the spec: [socket_open] then [socket_listen] of
    [socket.h] (the spec's [openListening]): the slot ends up listening. *)
Definition socket_open (s port : Z) (w : world) : world :=
  emit (Ev_socket_open s port) w.

Definition socket_listen (s : Z) (w : world) : world :=
  set_conn Listening (emit (Ev_socket_listen s) w).

(** Modelled from the spec: [socket_disconnect] of [socket.h] (the spec's
    [close]): the slot ends up closed. *)
Definition socket_disconnect (s : Z) (w : world) : world :=
  set_conn Closed (emit (Ev_socket_disconnect s) w).

(** ** [parseRecvBuffer] *)

(** The loop [while (!found) { ... }] of state [REQUEST].  [found] is 0 on
    entry, so the body runs before the first test that can fail. *)
Fixpoint request_loop (fuel : nat) (w : world) : result :=
  match fuel with
  | O => Spin w
  | S fuel' =>
      let (found, w) :=
        let (m, w) := socket_recv_compare SERVER_SOCKET "GET " w in
        if m then (1, set_apiCall GET w)
        else
          let (m, w) := socket_recv_compare SERVER_SOCKET "PUT " w in
          if m then (1, set_apiCall PUT w)
          else
            let (m, w) := socket_recv_compare SERVER_SOCKET "DELETE " w in
            if m then (1, set_apiCall DELETE w)
            else (0, w) in
      let w := socket_flush_line SERVER_SOCKET w in
      if found =? 0 then request_loop fuel' w else Done w
  end.

(** The loop [while (!socket_is_blank_line(SERVER_SOCKET)) socket_flush_line(SERVER_SOCKET);]
    of states [HEADER] and [END]. *)
Fixpoint flush_loop (fuel : nat) (w : world) : result :=
  if socket_is_blank_line SERVER_SOCKET w then Done w
  else
    match fuel with
    | O => Spin w
    | S fuel' => flush_loop fuel' (socket_flush_line SERVER_SOCKET w)
    end.

Definition parseRecvBuffer (fuel : nat) (w : world) : result :=
  if protocolState w =? EMPTY then
    if socket_received_line SERVER_SOCKET w then
      Done (set_protocolState REQUEST (set_apiCall NONE w))
    else Done w
  else if protocolState w =? REQUEST then
    request_loop fuel w >>= fun w =>
    Done (set_protocolState HEADER w)
  else if protocolState w =? HEADER then
    flush_loop fuel w >>= fun w =>
    let w := socket_flush_line SERVER_SOCKET w in
    if socket_recv_available SERVER_SOCKET w >? 0
    then Done (set_protocolState END w)
    else Done (set_protocolState EMPTY w)
  else if protocolState w =? END then
    flush_loop fuel w >>= fun w =>
    let w := socket_flush_line SERVER_SOCKET w in
    Done (set_protocolState EMPTY w)
  else
    Done (uart_writestr ("ERR: Default case entered" ++ CRLF) w).

(** The loop [while (socket_received_line(SERVER_SOCKET)) parseRecvBuffer();]
    of [main]. *)
Fixpoint pump (fuel : nat) (w : world) : result :=
  if socket_received_line SERVER_SOCKET w then
    match fuel with
    | O => Spin w
    | S fuel' => parseRecvBuffer fuel w >>= pump fuel'
    end
  else Done w.

(** ** Inputs of one scheduler iteration *)

(** What the collaborators answer during one pass through the body of
    [while (1)]: whether timer 1 is done, the sensor value, and the records
    the hysteresis evaluator adds to the log. *)
Record inputs : Type := mkInputs {
  delay_1_done : bool;
  sensor_value : Z;
  tempfsm_records : list (Z * Z)
}.

Definition delay_isdone (id : Z) (inp : inputs) : bool := delay_1_done inp.

Definition temp_get (inp : inputs) (w : world) : Z * world :=
  (sensor_value inp, emit Ev_temp_get w).

(** Modelled from the spec: [tempfsm_update] of [tempfsm.h] (the spec's
    [evaluate]), which may add entries to the log. *)
Definition tempfsm_update (inp : inputs) (t hi_a hi_w lo_a lo_w : Z) (w : world) : world :=
  let w := emit (Ev_tempfsm_update t hi_a hi_w lo_a lo_w) w in
  set_log (log w ++ tempfsm_records inp)%list w.

Definition TAB : string := String (ascii_of_nat 9) EmptyString.

(** Statements run one after the other. *)
Definition steps (l : list (world -> world)) (w : world) : world :=
  fold_left (fun w f => f w) l w.

(** The macros of [main.c]. *)
Definition _writeColon : world -> world := socket_writechar SERVER_SOCKET ":".
Definition _writeComma : world -> world := socket_writechar SERVER_SOCKET ",".
Definition _writeCloseBracket : world -> world := socket_writechar SERVER_SOCKET "}".

(** The text that [socket_writedec32], [socket_writedate] and
    [socket_write_macaddress] of [socket.h] put on the connection for a
    value; [main.c] does not fix it. *)
Record formats : Type := mkFormats {
  dec32_text : Z -> string;
  date_text : Z -> string;
  macaddress_text : list Z -> string
}.

Section Controller.

Variable fmt : formats.

Definition socket_writedec32 (s : Z) (v : Z) (w : world) : world :=
  socket_writestr s (dec32_text fmt v) w.

Definition socket_writedate (s : Z) (d : Z) (w : world) : world :=
  socket_writestr s (date_text fmt d) w.

Definition socket_write_macaddress (s : Z) (m : list Z) (w : world) : world :=
  socket_writestr s (macaddress_text fmt m) w.

(** ** [getCall] *)

(** The statements of [getCall] before the [for] loop. *)
Definition getCall_head (w : world) : world :=
  steps
    [ (* Header *)
      socket_writestr SERVER_SOCKET "HTTP/1.1 200 OK";
      socket_writestr SERVER_SOCKET "Content-Type: application/vnd.api+json";
      socket_writestr SERVER_SOCKET ("Connection: close" ++ CRLF);
      socket_writestr SERVER_SOCKET CRLF;
      (* JSON Payload *)
      socket_writechar SERVER_SOCKET "{"; socket_writequotedstring SERVER_SOCKET "vpd";
      socket_writestr SERVER_SOCKET ":{"; socket_writequotedstring SERVER_SOCKET "model";
      _writeColon; socket_writequotedstring SERVER_SOCKET (model (vpd w)); _writeComma;
      socket_writequotedstring SERVER_SOCKET "manufacturer"; _writeColon;
      socket_writequotedstring SERVER_SOCKET (manufacturer (vpd w)); _writeComma;
      socket_writequotedstring SERVER_SOCKET "serial_number"; _writeColon;
      socket_writequotedstring SERVER_SOCKET (serial_number (vpd w)); _writeComma;
      socket_writequotedstring SERVER_SOCKET "manufacture_date"; _writeColon;
      socket_writedate SERVER_SOCKET (manufacture_date (vpd w)); _writeComma;
      socket_writequotedstring SERVER_SOCKET "mac_address"; _writeColon;
      socket_write_macaddress SERVER_SOCKET (mac_address (vpd w)); _writeComma;
      socket_writequotedstring SERVER_SOCKET "country_code"; _writeColon;
      socket_writequotedstring SERVER_SOCKET (country_of_origin (vpd w));
      _writeCloseBracket; (* vpd object *)
      _writeComma; socket_writequotedstring SERVER_SOCKET "tcrit_hi"; _writeColon;
      socket_writedec32 SERVER_SOCKET (hi_alarm (config w)); _writeComma;
      socket_writequotedstring SERVER_SOCKET "twarn_hi"; _writeColon;
      socket_writedec32 SERVER_SOCKET (hi_warn (config w));
      _writeComma; socket_writequotedstring SERVER_SOCKET "tcrit_lo"; _writeColon;
      socket_writedec32 SERVER_SOCKET (lo_alarm (config w)); _writeComma;
      socket_writequotedstring SERVER_SOCKET "twarn_lo"; _writeColon;
      socket_writedec32 SERVER_SOCKET (lo_warn (config w)); _writeComma;
      socket_writequotedstring SERVER_SOCKET "temperature"; _writeColon;
      socket_writedec32 SERVER_SOCKET (current_temperature w); _writeComma;
      socket_writequotedstring SERVER_SOCKET "state"; _writeColon;
      socket_writequotedstring SERVER_SOCKET "NORMAL"; _writeComma;
      socket_writequotedstring SERVER_SOCKET "log"; socket_writestr SERVER_SOCKET ":[" ]
    w.

(** The loop [for (int i=0; i<log_get_num_entries(); i++) { ... }]. *)
Fixpoint log_loop (fuel : nat) (i : Z) (w : world) : result :=
  if i <? log_get_num_entries w then
    match fuel with
    | O => Spin w
    | S fuel' =>
        let (time, eventnum) := log_get_record i w in
        let w :=
          steps
            [ socket_writechar SERVER_SOCKET "{";
              socket_writequotedstring SERVER_SOCKET "timestamp"; _writeColon;
              socket_writedate SERVER_SOCKET time; _writeComma;
              socket_writequotedstring SERVER_SOCKET "event"; _writeColon;
              socket_writedec32 SERVER_SOCKET eventnum;
              socket_writechar SERVER_SOCKET "}" ]
            w in
        let w := if i <? log_get_num_entries w - 1 then _writeComma w else w in
        log_loop fuel' (int_incr i) w
    end
  else Done w.

Definition getCall (fuel : nat) (w : world) : result :=
  let w := getCall_head w in
  log_loop fuel 0 w >>= fun w =>
  Done (steps
          [ socket_writechar SERVER_SOCKET "]";
            _writeCloseBracket; (* end of JSON *)
            socket_writestr SERVER_SOCKET CRLF (* end of response *) ]
          w).

Definition putCall (w : world) : world :=
  uart_writestr ("PUT command ..." ++ CRLF) w.

Definition deleteCall (w : world) : world :=
  uart_writestr ("DELETE command ..." ++ CRLF) w.

(** ** The body of [while (1)] in [main] *)

(** [switch (apiCall) { ... }] *)
Definition dispatch (fuel : nat) (w : world) : result :=
  if apiCall w =? NONE then Done w
  else if apiCall w =? GET then getCall fuel w
  else if apiCall w =? PUT then Done (putCall w)
  else if apiCall w =? DELETE then Done (deleteCall w)
  else Done w.

Definition main_loop_body (inp : inputs) (fuel : nat) (w : world) : result :=
  (* reset the watchdog timer every loop *)
  let w := wdt_reset w in
  (* update the LED blink state *)
  let w := led_update w in
  let w :=
    if delay_isdone 1 inp then
      let (t, w) := temp_get inp w in
      let w := set_current_temperature t w in
      let w := uart_writedec32 (current_temperature w) w in
      let w :=
        if socket_is_established SERVER_SOCKET w then
          uart_writestr (TAB ++ "socket established" ++ CRLF) w
        else if socket_is_listening SERVER_SOCKET w then
          uart_writestr (TAB ++ "socket listening" ++ CRLF) w
        else if socket_is_closed SERVER_SOCKET w then
          uart_writestr (TAB ++ "socket closed" ++ CRLF) w
        else
          uart_writestr (TAB ++ "socket status unknown" ++ CRLF) w in
      let w := tempfsm_update inp (current_temperature w)
                 (hi_alarm (config w)) (hi_warn (config w))
                 (lo_alarm (config w)) (lo_warn (config w)) w in
      let w := delay_set 1 1000 w in
      temp_start w
    else w in
  let w :=
    if socket_is_closed SERVER_SOCKET w then
      socket_listen SERVER_SOCKET (socket_open SERVER_SOCKET HTTP_PORT w)
    else w in
  (* if there is input to process *)
  if socket_received_line SERVER_SOCKET w then
    pump fuel w >>= fun w =>
    dispatch fuel w >>= fun w =>
    (* disconnect after responding to HTTP request *)
    Done (socket_disconnect SERVER_SOCKET w)
  else
    Done (config_update (log_update w)).

(** ** The response, as the interface describes it *)

Definition quoted (s : string) : string := DQUOTE ++ s ++ DQUOTE.

(** The JSON object up to the opening bracket of the log array: the keys
    in their fixed order. *)
Definition json_head (w : world) : string :=
  "{" ++ quoted "vpd" ++ ":{" ++
    quoted "model" ++ ":" ++ quoted (model (vpd w)) ++ "," ++
    quoted "manufacturer" ++ ":" ++ quoted (manufacturer (vpd w)) ++ "," ++
    quoted "serial_number" ++ ":" ++ quoted (serial_number (vpd w)) ++ "," ++
    quoted "manufacture_date" ++ ":" ++ date_text fmt (manufacture_date (vpd w)) ++ "," ++
    quoted "mac_address" ++ ":" ++ macaddress_text fmt (mac_address (vpd w)) ++ "," ++
    quoted "country_code" ++ ":" ++ quoted (country_of_origin (vpd w)) ++ "}" ++ "," ++
  quoted "tcrit_hi" ++ ":" ++ dec32_text fmt (hi_alarm (config w)) ++ "," ++
  quoted "twarn_hi" ++ ":" ++ dec32_text fmt (hi_warn (config w)) ++ "," ++
  quoted "tcrit_lo" ++ ":" ++ dec32_text fmt (lo_alarm (config w)) ++ "," ++
  quoted "twarn_lo" ++ ":" ++ dec32_text fmt (lo_warn (config w)) ++ "," ++
  quoted "temperature" ++ ":" ++ dec32_text fmt (current_temperature w) ++ "," ++
  quoted "state" ++ ":" ++ quoted "NORMAL" ++ "," ++
  quoted "log" ++ ":[".

(** One element of the log array. *)
Definition log_entry_text (r : Z * Z) : string :=
  "{" ++ quoted "timestamp" ++ ":" ++ date_text fmt (fst r) ++ "," ++
  quoted "event" ++ ":" ++ dec32_text fmt (snd r) ++ "}".

(** The elements of the log array: one per record [0 .. log_get_num_entries - 1],
    in that order, with a comma between two elements. *)
Definition log_array_text (w : world) : string :=
  String.concat ","
    (map (fun i => log_entry_text (log_get_record (Z.of_nat i) w))
         (seq 0 (Z.to_nat (log_get_num_entries w)))).

End Controller.

(** ** Requests on the wire *)

(** The method a request line names: the [apiCall] value of the first of
    the prefixes ["GET "], ["PUT "], ["DELETE "] the line begins with, [NONE]
    when it begins with none of them. *)
Definition method_of (l : string) : Z :=
  if prefix "GET " l then GET
  else if prefix "PUT " l then PUT
  else if prefix "DELETE " l then DELETE
  else NONE.

(** A request: its request line, its header lines and, when it has a body,
    its body lines. *)
Record request : Type := mkRequest {
  req_line : string;
  req_headers : list string;
  req_body : option (list string)
}.

Definition nonblank (l : string) : Prop := l <> "".

(** The request line names a method; header and body lines are not blank. *)
Definition valid_request (r : request) : Prop :=
  method_of (req_line r) <> NONE /\
  Forall nonblank (req_headers r) /\
  match req_body r with
  | None => True
  | Some bs => Forall nonblank bs
  end.

(** The lines of a request on the wire: request line, header lines, blank
    line and, with a body, body lines and a second blank line. *)
Definition lines_of (r : request) : list string :=
  (req_line r :: req_headers r ++ [""] ++
   match req_body r with
   | None => []
   | Some bs => bs ++ [""]
   end)%list.

(** The state [HEADER] leaves for, once the blank line is dropped, with the
    lines [rest] and the bytes [tail] of a line not yet complete buffered
    behind it: [END] when a byte is available, [EMPTY] when none is. *)
Definition state_after_headers (rest : list string) (tail : string) : Z :=
  match rest with
  | _ :: _ => END
  | [] => if String.eqb tail "" then EMPTY else END
  end.

(** The state the parser rests in once the lines of a fully buffered
    request are consumed, with the bytes [tail] buffered behind them.  With
    header lines and a body the body is dropped in [END], which leaves for
    [EMPTY]; otherwise the last blank line is dropped in [HEADER]. *)
Definition state_after_request (r : request) (tail : string) : Z :=
  match req_headers r, req_body r with
  | _ :: _, Some _ => EMPTY
  | _, _ => state_after_headers [] tail
  end.

(** Lines that complete on the connection are buffered behind the ones
    already there; the first of them ends the line not yet complete, when
    bytes of one were buffered. *)
Definition arrive (ls : list string) (w : world) : world :=
  match ls with
  | [] => w
  | l :: ls' =>
      set_rx_tail "" (set_rx (rx w ++ (rx_tail w ++ l)%string :: ls')%list w)
  end.

(** Bytes arrive that do not complete a line. *)
Definition arrive_bytes (b : string) (w : world) : world :=
  set_rx_tail (rx_tail w ++ b) w.

(** Scheduler iterations with input: before each one a chunk of lines has
    arrived, and the iteration pumps the parser until no line is buffered. *)
Fixpoint feed (fuel : nat) (chunks : list (list string)) (w : world) : result :=
  match chunks with
  | [] => Done w
  | c :: cs => pump fuel (arrive c w) >>= feed fuel cs
  end.

(** The globals as [main.c] initialises them, with no line buffered, nothing
    written, an empty log and sample product data and thresholds. *)
Definition boot_world : world :=
  mkWorld EMPTY NONE 75 [] "" "" Closed []
          (mkVpd "M" "ASU" "S1" 0 [0; 0; 0; 0; 0; 0] "USA")
          (mkConfig 100 90 40 50) [].

(** Calls the parser makes. *)
Definition parser_event (e : event) : Prop :=
  match e with
  | Ev_socket_recv_compare _ _ | Ev_socket_flush_line _ | Ev_uart_writestr _ => True
  | _ => False
  end.

(** Calls the dispatcher makes. *)
Definition dispatch_event (e : event) : Prop :=
  match e with
  | Ev_socket_write _ _ | Ev_uart_writestr _ => True
  | _ => False
  end.

(** [w'] is [w] after some more calls, each of them in [P]. *)
Definition extends (P : event -> Prop) (w w' : world) : Prop :=
  exists evs, trace w' = (trace w ++ evs)%list /\ Forall P evs.

(** [w'] has the globals, the connection and the log of [w]: at most the
    receive buffer and the trace differ. *)
Definition keeps (w w' : world) : Prop :=
  protocolState w' = protocolState w /\
  apiCall w' = apiCall w /\
  tx w' = tx w /\
  conn w' = conn w /\
  log w' = log w /\
  rx_tail w' = rx_tail w.

(** [boot_world] with the parser in state [s] and the lines [ls] buffered. *)
Definition in_state (s : Z) (ls : list string) : world :=
  set_rx ls (set_protocolState s boot_world).

(** [w'] is [w] with [t] written to the connection: apart from [tx] and the
    trace, which has grown by calls of the dispatcher, nothing differs. *)
Definition wrote (t : string) (w w' : world) : Prop :=
  tx w' = (tx w ++ t)%string /\
  protocolState w' = protocolState w /\ apiCall w' = apiCall w /\
  current_temperature w' = current_temperature w /\
  rx w' = rx w /\ conn w' = conn w /\ log w' = log w /\
  vpd w' = vpd w /\ config w' = config w /\
  extends dispatch_event w w'.

(** Calls of the sampling step and of the connection lifecycle step. *)
Definition housekeeping_event (e : event) : Prop :=
  match e with
  | Ev_temp_get | Ev_temp_start | Ev_delay_set _ _ | Ev_tempfsm_update _ _ _ _ _
  | Ev_uart_writedec32 _ | Ev_uart_writestr _
  | Ev_socket_open _ _ | Ev_socket_listen _ => True
  | _ => False
  end.

(** Calls made while a request is parsed and answered, before the
    connection is closed. *)
Definition request_event (e : event) : Prop :=
  parser_event e \/ dispatch_event e.

(** Formats that write the same text for every value, to run [getCall]. *)
Definition plain_formats : formats :=
  mkFormats (fun _ => "0") (fun _ => "2019-12-06") (fun _ => "00:00:00:00:00:00").

(** ** The run of [main] and what its steps may touch *)

(** [protocolState] holds one of the four states of the FSM. *)
Definition valid_state (w : world) : Prop :=
  In (protocolState w) [EMPTY; REQUEST; HEADER; END].

(** [apiCall] holds one of the four API calls. *)
Definition valid_apiCall (w : world) : Prop :=
  In (apiCall w) [NONE; GET; PUT; DELETE].

(** [w'] differs from [w] at most in the parser's own data: [protocolState],
    [apiCall], the receive buffer and the trace. *)
Definition parser_frame (w w' : world) : Prop :=
  tx w' = tx w /\ conn w' = conn w /\ log w' = log w /\
  current_temperature w' = current_temperature w /\
  vpd w' = vpd w /\ config w' = config w /\
  rx_tail w' = rx_tail w.

(** The receive buffer of [w'] is what is left of the one of [w] once some
    lines have been taken off its front. *)
Definition consumed (w w' : world) : Prop :=
  exists k, rx w' = skipn k (rx w).

(** Calls that read or drop buffered lines. *)
Definition buffer_event (e : event) : Prop :=
  match e with
  | Ev_socket_recv_compare _ _ | Ev_socket_flush_line _ => True
  | _ => False
  end.

(** The world once the sampling step of an iteration is over: with timer 1
    done, the sensor value is the current temperature and the evaluator has
    added its records to the log. *)
Definition after_sampling (inp : inputs) (w : world) : world :=
  if delay_1_done inp then
    set_log (log w ++ tempfsm_records inp)%list
            (set_current_temperature (sensor_value inp) w)
  else w.

(** The line the sampling step prints for the state of the connection. *)
Definition conn_text (c : conn_state) : string :=
  match c with
  | Established => TAB ++ "socket established" ++ CRLF
  | Listening => TAB ++ "socket listening" ++ CRLF
  | Closed => TAB ++ "socket closed" ++ CRLF
  end.

(** The calls of the sampling step. *)
Definition sampling_calls (inp : inputs) (w : world) : list event :=
  if delay_1_done inp then
    [ Ev_temp_get;
      Ev_uart_writedec32 (sensor_value inp);
      Ev_uart_writestr (conn_text (conn w));
      Ev_tempfsm_update (sensor_value inp)
        (hi_alarm (config w)) (hi_warn (config w))
        (lo_alarm (config w)) (lo_warn (config w));
      Ev_delay_set 1 1000;
      Ev_temp_start ]
  else [].

(** The calls of the connection lifecycle step. *)
Definition lifecycle_calls (w : world) : list event :=
  match conn w with
  | Closed => [Ev_socket_open SERVER_SOCKET HTTP_PORT; Ev_socket_listen SERVER_SOCKET]
  | _ => []
  end.

(** The state of the connection after the lifecycle step. *)
Definition after_lifecycle (c : conn_state) : conn_state :=
  match c with
  | Closed => Listening
  | _ => c
  end.

(** What happens around one pass through [while (1)]: the answers of the
    collaborators and the lines that completed on the connection since the
    pass before. *)
Record tick : Type := mkTick {
  tick_inputs : inputs;
  tick_lines : list string
}.

(** [while (1) { ... }] of [main], for as many passes as there are ticks. *)
Fixpoint main_loop (fmt : formats) (fuel : nat) (ticks : list tick) (w : world) : result :=
  match ticks with
  | [] => Done w
  | t :: ts =>
      main_loop_body fmt (tick_inputs t) fuel (arrive (tick_lines t) w) >>=
      main_loop fmt fuel ts
  end.

Definition is_wdt_reset (e : event) : bool :=
  match e with Ev_wdt_reset => true | _ => false end.

(** How often the watchdog has been reset. *)
Definition watchdog_resets (w : world) : nat :=
  List.length (filter is_wdt_reset (trace w)).

(** Inputs of a pass in which timer 1 is done, and the lines of a request. *)
Definition sampled_inputs : inputs := mkInputs true 80 [(5, 3)].

Definition GET_lines : list string := ["GET /vpd HTTP/1.1"; "Host: x"; ""].

Definition PUT_lines : list string :=
  ["PUT /vpd HTTP/1.1"; "Host: x"; ""; "tcrit_hi=100"; ""].

(** * Properties *)

(** ** Basic facts *)

Lemma extends_refl P w : extends P w w.
Proof. exists []. split; [now rewrite app_nil_r | constructor]. Qed.

Lemma extends_trans P w1 w2 w3 :
  extends P w1 w2 -> extends P w2 w3 -> extends P w1 w3.
Proof.
  intros [e1 [H1 F1]] [e2 [H2 F2]]. exists (e1 ++ e2)%list. split.
  - now rewrite H2, H1, app_assoc.
  - apply Forall_app; now split.
Qed.

Lemma extends_emit (P : event -> Prop) e w : P e -> extends P w (emit e w).
Proof. intros He. exists [e]. split; [reflexivity | now constructor]. Qed.

Lemma extends_weaken (P Q : event -> Prop) w w' :
  (forall e, P e -> Q e) -> extends P w w' -> extends Q w w'.
Proof.
  intros HPQ [evs [Ht F]]. exists evs. split; [exact Ht |].
  eapply Forall_impl; [exact HPQ | exact F].
Qed.

Lemma keeps_refl w : keeps w w.
Proof. repeat split. Qed.

Lemma keeps_trans w1 w2 w3 : keeps w1 w2 -> keeps w2 w3 -> keeps w1 w3.
Proof.
  unfold keeps. intros (A1 & A2 & A3 & A4 & A5 & A6) (B1 & B2 & B3 & B4 & B5 & B6).
  repeat split; congruence.
Qed.

(** ** The socket calls of the parser *)

Lemma flush_line_rx s w : rx (socket_flush_line s w) = tl (rx w).
Proof. reflexivity. Qed.

Lemma flush_line_keeps s w : keeps w (socket_flush_line s w).
Proof. repeat split. Qed.

Lemma flush_line_extends s w : extends parser_event w (socket_flush_line s w).
Proof. exists [Ev_socket_flush_line s]. split; [reflexivity | repeat constructor]. Qed.

Lemma recv_compare_extends s str w :
  extends parser_event w (snd (socket_recv_compare s str w)).
Proof.
  exists [Ev_socket_recv_compare s str]. split; [| repeat constructor].
  unfold socket_recv_compare. cbn.
  destruct (rx w) as [|l ls]; [reflexivity |].
  destruct (prefix str l); reflexivity.
Qed.

(** ** One pass through the body of the [REQUEST] loop *)

Lemma request_pass_nil fuel w :
  rx w = [] ->
  exists w1, request_loop (S fuel) w = request_loop fuel w1 /\
             rx w1 = [] /\ keeps w w1 /\ extends parser_event w w1.
Proof.
  destruct w as [ps ac ct rxw rxt txw c lg v cf tr]. cbn [rx]. intros ->.
  eexists. split; [reflexivity |]. split; [reflexivity |]. split; [repeat split |].
  eexists. split; [cbn; rewrite <- !app_assoc; reflexivity | repeat constructor].
Qed.

Lemma method_of_NONE l :
  method_of l = NONE ->
  prefix "GET " l = false /\ prefix "PUT " l = false /\ prefix "DELETE " l = false.
Proof.
  unfold method_of.
  destruct (prefix "GET " l); [discriminate |].
  destruct (prefix "PUT " l); [discriminate |].
  destruct (prefix "DELETE " l); [discriminate |].
  repeat split.
Qed.

Lemma request_pass_nomatch fuel w l ls :
  rx w = l :: ls -> method_of l = NONE ->
  exists w1, request_loop (S fuel) w = request_loop fuel w1 /\
             rx w1 = ls /\ keeps w w1 /\ extends parser_event w w1.
Proof.
  destruct w as [ps ac ct rxw rxt txw c lg v cf tr]. cbn [rx]. intros -> Hm.
  destruct (method_of_NONE l Hm) as (G & P & D).
  cbn [request_loop]. unfold socket_recv_compare.
  cbn -[prefix]. rewrite G. cbn -[prefix]. rewrite P. cbn -[prefix]. rewrite D.
  cbn -[prefix].
  eexists. split; [reflexivity |]. split; [reflexivity |]. split; [repeat split |].
  eexists. split; [cbn; rewrite <- !app_assoc; reflexivity | repeat constructor].
Qed.

Lemma request_pass_match fuel w l ls :
  rx w = l :: ls -> method_of l <> NONE ->
  exists w1, request_loop (S fuel) w = Done w1 /\
             rx w1 = tl ls /\ apiCall w1 = method_of l /\
             protocolState w1 = protocolState w /\ tx w1 = tx w /\
             extends parser_event w w1.
Proof.
  destruct w as [ps ac ct rxw rxt txw c lg v cf tr]. cbn [rx]. intros -> Hm.
  unfold method_of in *.
  cbn [request_loop]. unfold socket_recv_compare. cbn -[prefix].
  destruct (prefix "GET " l) eqn:G.
  { cbn -[prefix]. eexists. repeat (split; [reflexivity |]).
    eexists. split; [cbn; rewrite <- !app_assoc; reflexivity | repeat constructor]. }
  cbn -[prefix].
  destruct (prefix "PUT " l) eqn:P.
  { cbn -[prefix]. eexists. repeat (split; [reflexivity |]).
    eexists. split; [cbn; rewrite <- !app_assoc; reflexivity | repeat constructor]. }
  cbn -[prefix].
  destruct (prefix "DELETE " l) eqn:D; [| contradiction].
  cbn -[prefix]. eexists. repeat (split; [reflexivity |]).
  eexists. split; [cbn; rewrite <- !app_assoc; reflexivity | repeat constructor].
Qed.

(** ** The [REQUEST] loop *)

(** With a request line buffered behind lines that name no method, the loop
    returns: it has dropped those lines, the request line and the line after
    it. *)
Lemma request_loop_finds pre : forall fuel w m rest,
  rx w = (pre ++ m :: rest)%list ->
  Forall (fun l => method_of l = NONE) pre ->
  method_of m <> NONE ->
  (List.length pre < fuel)%nat ->
  exists w1, request_loop fuel w = Done w1 /\
             rx w1 = tl rest /\ apiCall w1 = method_of m /\
             protocolState w1 = protocolState w /\ tx w1 = tx w /\
             extends parser_event w w1.
Proof.
  induction pre as [|p pre IH]; intros fuel w m rest Hrx Hpre Hm Hfuel.
  - destruct fuel as [|fuel]; [cbn in Hfuel; lia |].
    exact (request_pass_match fuel w m rest Hrx Hm).
  - destruct fuel as [|fuel]; [cbn in Hfuel; lia |].
    inversion Hpre as [|? ? Hp Hpre']; subst.
    destruct (request_pass_nomatch fuel w p (pre ++ m :: rest)%list Hrx Hp)
      as (w1 & Heq & Hrx1 & (K1 & K2 & K3 & _) & E1).
    destruct (IH fuel w1 m rest Hrx1 Hpre' Hm ltac:(cbn in Hfuel; lia))
      as (w2 & Hdone & Hrx2 & Hapi & Hps & Htx & E2).
    exists w2. rewrite Heq. split; [exact Hdone |].
    repeat split; try congruence.
    eapply extends_trans; eassumption.
Qed.

(** With no buffered line naming a method, the loop does not return,
    whatever the fuel: once the buffer is empty it keeps comparing and
    flushing. *)
Lemma request_loop_spins fuel : forall w,
  Forall (fun l => method_of l = NONE) (rx w) ->
  exists w1, request_loop fuel w = Spin w1 /\ keeps w w1 /\
             extends parser_event w w1 /\
             rx w1 = skipn fuel (rx w).
Proof.
  induction fuel as [|fuel IH]; intros w Hall.
  - exists w. cbn. split; [reflexivity |]. split; [apply keeps_refl |].
    split; [apply extends_refl | reflexivity].
  - destruct (rx w) as [|l ls] eqn:Hrx.
    + destruct (request_pass_nil fuel w Hrx) as (w1 & Heq & Hrx1 & K1 & E1).
      destruct (IH w1) as (w2 & Hspin & K2 & E2 & Hl2).
      { rewrite Hrx1. constructor. }
      exists w2. rewrite Heq. split; [exact Hspin |].
      split; [eapply keeps_trans; eassumption |].
      split; [eapply extends_trans; eassumption |].
      rewrite Hl2, Hrx1. now destruct fuel.
    + inversion Hall as [|? ? Hl Hls]; subst.
      destruct (request_pass_nomatch fuel w l ls Hrx Hl) as (w1 & Heq & Hrx1 & K1 & E1).
      destruct (IH w1) as (w2 & Hspin & K2 & E2 & Hl2).
      { rewrite Hrx1. exact Hls. }
      exists w2. rewrite Heq. split; [exact Hspin |].
      split; [eapply keeps_trans; eassumption |].
      split; [eapply extends_trans; eassumption |].
      rewrite Hl2, Hrx1. reflexivity.
Qed.

(** ** The flush loop of [HEADER] and [END] *)

Lemma blank_line_cons s w l ls :
  rx w = l :: ls -> socket_is_blank_line s w = String.eqb l "".
Proof. unfold socket_is_blank_line. now intros ->. Qed.

Lemma blank_line_nil s w : rx w = [] -> socket_is_blank_line s w = false.
Proof. unfold socket_is_blank_line. now intros ->. Qed.

Lemma nonblank_eqb l : nonblank l -> String.eqb l "" = false.
Proof. intros H. now apply String.eqb_neq. Qed.

(** With a blank line buffered behind lines that are not blank, the loop
    returns with the blank line first in the buffer. *)
Lemma flush_loop_to_blank hs : forall fuel w rest,
  rx w = (hs ++ "" :: rest)%list ->
  Forall nonblank hs ->
  (List.length hs <= fuel)%nat ->
  exists w1, flush_loop fuel w = Done w1 /\ rx w1 = "" :: rest /\
             keeps w w1 /\ extends parser_event w w1.
Proof.
  induction hs as [|h hs IH]; intros fuel w rest Hrx Hall Hfuel.
  - exists w. cbn in Hrx.
    assert (Hb : socket_is_blank_line SERVER_SOCKET w = true)
      by now rewrite (blank_line_cons _ _ _ _ Hrx).
    destruct fuel; cbn [flush_loop]; rewrite Hb;
      (split; [reflexivity |]); (split; [exact Hrx |]);
      (split; [apply keeps_refl | apply extends_refl]).
  - inversion Hall as [|? ? Hh Hall']; subst.
    destruct fuel as [|fuel]; [cbn in Hfuel; lia |].
    cbn [flush_loop].
    rewrite (blank_line_cons _ _ _ _ Hrx), (nonblank_eqb _ Hh).
    destruct (IH fuel (socket_flush_line SERVER_SOCKET w) rest)
      as (w1 & Hdone & Hrx1 & K1 & E1).
    + rewrite flush_line_rx, Hrx. reflexivity.
    + exact Hall'.
    + cbn in Hfuel. lia.
    + exists w1. split; [exact Hdone |]. split; [exact Hrx1 |].
      split; [eapply keeps_trans; [apply flush_line_keeps | exact K1] |].
      eapply extends_trans; [apply flush_line_extends | exact E1].
Qed.

(** With no blank line buffered, the loop does not return, whatever the
    fuel. *)
Lemma flush_loop_spins fuel : forall w,
  Forall nonblank (rx w) ->
  exists w1, flush_loop fuel w = Spin w1 /\ keeps w w1 /\
             extends parser_event w w1.
Proof.
  induction fuel as [|fuel IH]; intros w Hall.
  - exists w. cbn [flush_loop].
    assert (Hb : socket_is_blank_line SERVER_SOCKET w = false).
    { destruct (rx w) as [|l ls] eqn:Hrx.
      - now apply blank_line_nil.
      - rewrite (blank_line_cons _ _ _ _ Hrx). apply nonblank_eqb.
        now inversion Hall. }
    rewrite Hb. split; [reflexivity |].
    split; [apply keeps_refl | apply extends_refl].
  - cbn [flush_loop].
    assert (Hb : socket_is_blank_line SERVER_SOCKET w = false).
    { destruct (rx w) as [|l ls] eqn:Hrx.
      - now apply blank_line_nil.
      - rewrite (blank_line_cons _ _ _ _ Hrx). apply nonblank_eqb.
        now inversion Hall. }
    rewrite Hb.
    destruct (IH (socket_flush_line SERVER_SOCKET w)) as (w1 & Hspin & K1 & E1).
    { rewrite flush_line_rx. destruct (rx w); [constructor |].
      now inversion Hall. }
    exists w1. split; [exact Hspin |].
    split; [eapply keeps_trans; [apply flush_line_keeps | exact K1] |].
    eapply extends_trans; [apply flush_line_extends | exact E1].
Qed.

(** ** [parseRecvBuffer], state by state *)

Lemma parse_EMPTY fuel w :
  protocolState w = EMPTY ->
  parseRecvBuffer fuel w =
    if socket_received_line SERVER_SOCKET w
    then Done (set_protocolState REQUEST (set_apiCall NONE w))
    else Done w.
Proof. intros H. unfold parseRecvBuffer. now rewrite H. Qed.

Lemma parse_REQUEST fuel w :
  protocolState w = REQUEST ->
  parseRecvBuffer fuel w =
    request_loop fuel w >>= fun w => Done (set_protocolState HEADER w).
Proof. intros H. unfold parseRecvBuffer. now rewrite H. Qed.

Lemma parse_HEADER fuel w :
  protocolState w = HEADER ->
  parseRecvBuffer fuel w =
    flush_loop fuel w >>= fun w =>
    let w := socket_flush_line SERVER_SOCKET w in
    if socket_recv_available SERVER_SOCKET w >? 0
    then Done (set_protocolState END w)
    else Done (set_protocolState EMPTY w).
Proof. intros H. unfold parseRecvBuffer. now rewrite H. Qed.

Lemma parse_END fuel w :
  protocolState w = END ->
  parseRecvBuffer fuel w =
    flush_loop fuel w >>= fun w =>
    let w := socket_flush_line SERVER_SOCKET w in
    Done (set_protocolState EMPTY w).
Proof. intros H. unfold parseRecvBuffer. now rewrite H. Qed.

Lemma parse_default fuel w :
  protocolState w <> EMPTY -> protocolState w <> REQUEST ->
  protocolState w <> HEADER -> protocolState w <> END ->
  parseRecvBuffer fuel w =
    Done (uart_writestr ("ERR: Default case entered" ++ CRLF) w).
Proof.
  intros H0 H1 H2 H3. unfold parseRecvBuffer.
  apply Z.eqb_neq in H0, H1, H2, H3. now rewrite H0, H1, H2, H3.
Qed.

Lemma recv_available_pos s w :
  (socket_recv_available s w >? 0) =
  (socket_received_line s w || negb (String.eqb (rx_tail w) ""))%bool.
Proof.
  unfold socket_recv_available, socket_received_line.
  destruct (rx w) as [|l ls].
  - cbn [fold_right orb]. destruct (rx_tail w) as [|c t]; [reflexivity |].
    cbn [String.eqb negb String.length]. apply Z.gtb_lt. lia.
  - cbn [fold_right orb].
    assert (0 <= fold_right (fun l n => Z.of_nat (String.length l) + 2 + n) 0 ls).
    { induction ls as [|a ls IH]; cbn [fold_right]; lia. }
    apply Z.gtb_lt. lia.
Qed.

(** ** The parser, one call *)

(** C10, as amended.  In state [REQUEST], once a buffered line begins with
    one of the method prefixes (the compare consumes that line),
    [parseRecvBuffer] flushes once more and goes to [HEADER]: when a line is
    buffered behind the request line, exactly that one line is dropped and
    header processing starts at the line after it; when the request line is
    the last buffered line, nothing more is dropped. *)
Theorem request_line_then_one_flush fuel w pre m rest :
  protocolState w = REQUEST ->
  rx w = (pre ++ m :: rest)%list ->
  Forall (fun l => method_of l = NONE) pre ->
  method_of m <> NONE ->
  (List.length pre < fuel)%nat ->
  exists w', parseRecvBuffer fuel w = Done w' /\
             protocolState w' = HEADER /\
             apiCall w' = method_of m /\
             rx w' = tl rest.
Proof.
  intros Hps Hrx Hpre Hm Hfuel.
  destruct (request_loop_finds pre fuel w m rest Hrx Hpre Hm Hfuel)
    as (w1 & Hdone & Hrx1 & Hapi & _).
  exists (set_protocolState HEADER w1).
  rewrite (parse_REQUEST _ _ Hps), Hdone. cbn [bind].
  repeat split; assumption.
Qed.

(** C10, counterexample.  With the request line the last buffered line, the
    call drops no line besides it, and the line that follows the request
    line on the connection, arriving next, is the first line header
    processing sees: the call in [HEADER] flushes it and the blank line. *)
Lemma request_line_last_buffered_next_line_seen :
  exists w1,
    parseRecvBuffer 1 (in_state REQUEST ["GET /vpd HTTP/1.1"]) = Done w1 /\
    protocolState w1 = HEADER /\
    trace w1 = [Ev_socket_recv_compare SERVER_SOCKET "GET ";
                Ev_socket_flush_line SERVER_SOCKET] /\
    rx w1 = [] /\
    rx (arrive ["Host: x"; ""] w1) = ["Host: x"; ""] /\
    exists w2,
      parseRecvBuffer 1 (arrive ["Host: x"; ""] w1) = Done w2 /\
      trace w2 = (trace w1 ++ [Ev_socket_flush_line SERVER_SOCKET;
                               Ev_socket_flush_line SERVER_SOCKET])%list /\
      rx w2 = [] /\ protocolState w2 = EMPTY.
Proof.
  eexists. split; [vm_compute; reflexivity |].
  repeat (split; [reflexivity |]).
  eexists. split; [vm_compute; reflexivity |].
  repeat split.
Qed.

(** C1, at the failing input.  In state [REQUEST] with the one buffered
    line ["Host: x"], which names no method, [parseRecvBuffer] does not
    return for any amount of fuel: each pass through the [while (!found)]
    loop drops a line while there is one, and the passes go on, comparing
    and flushing, on the empty buffer. *)
Theorem parseRecvBuffer_spins_without_request_line :
  forall fuel,
    exists w', parseRecvBuffer fuel (in_state REQUEST ["Host: x"]) = Spin w' /\
               rx w' = skipn fuel ["Host: x"].
Proof.
  intros fuel.
  destruct (request_loop_spins fuel (in_state REQUEST ["Host: x"]))
    as (w1 & Hspin & _ & _ & Hl).
  { repeat constructor. }
  exists w1. rewrite parse_REQUEST by reflexivity. rewrite Hspin.
  split; [reflexivity | exact Hl].
Qed.

(** C7, as amended.  Entered with [protocolState] outside [EMPTY],
    [REQUEST], [HEADER], [END], [parseRecvBuffer] writes the diagnostic to
    the uart and returns; [protocolState] keeps its value, and [apiCall],
    the receive buffer and the bytes written to the connection are
    unchanged. *)
Theorem parseRecvBuffer_invalid_state_kept fuel w :
  protocolState w <> EMPTY -> protocolState w <> REQUEST ->
  protocolState w <> HEADER -> protocolState w <> END ->
  exists w', parseRecvBuffer fuel w = Done w' /\
             trace w' = (trace w ++ [Ev_uart_writestr ("ERR: Default case entered" ++ CRLF)])%list /\
             protocolState w' = protocolState w /\
             apiCall w' = apiCall w /\
             rx w' = rx w /\
             tx w' = tx w.
Proof.
  intros H0 H1 H2 H3. eexists.
  split; [apply parse_default; assumption |].
  repeat split.
Qed.

(** C8, as amended.  With no complete line buffered, and [protocolState]
    other than [REQUEST], [HEADER] and [END], a call of [parseRecvBuffer]
    returns and leaves [protocolState], [apiCall] and the receive buffer as
    they were. *)
Theorem parseRecvBuffer_no_line_noop fuel w :
  rx w = [] ->
  protocolState w <> REQUEST -> protocolState w <> HEADER -> protocolState w <> END ->
  exists w', parseRecvBuffer fuel w = Done w' /\
             protocolState w' = protocolState w /\
             apiCall w' = apiCall w /\
             rx w' = rx w.
Proof.
  intros Hrx H1 H2 H3.
  destruct (Z.eq_dec (protocolState w) EMPTY) as [H0 | H0].
  - exists w. rewrite (parse_EMPTY _ _ H0).
    unfold socket_received_line. rewrite Hrx. repeat split.
  - eexists. split; [apply parse_default; assumption |]. repeat split.
Qed.

Lemma parse_HEADER_to_blank fuel w hs rest :
  protocolState w = HEADER ->
  rx w = (hs ++ "" :: rest)%list ->
  Forall nonblank hs ->
  (List.length hs <= fuel)%nat ->
  exists w', parseRecvBuffer fuel w = Done w' /\
             rx w' = rest /\
             apiCall w' = apiCall w /\
             tx w' = tx w /\
             protocolState w' = state_after_headers rest (rx_tail w').
Proof.
  intros Hps Hrx Hall Hfuel.
  destruct (flush_loop_to_blank hs fuel w rest Hrx Hall Hfuel)
    as (w1 & Hdone & Hrx1 & (_ & K2 & K3 & _) & _).
  rewrite (parse_HEADER _ _ Hps), Hdone. cbn [bind]. cbv zeta.
  rewrite recv_available_pos. unfold socket_received_line.
  rewrite flush_line_rx, Hrx1. cbn [tl].
  change (rx_tail (socket_flush_line SERVER_SOCKET w1)) with (rx_tail w1).
  unfold state_after_headers.
  destruct rest as [|r rest]; cbn [orb].
  - destruct (String.eqb (rx_tail w1) "") eqn:Et; cbn [negb];
      eexists; (split; [reflexivity |]); cbn; rewrite Hrx1, ?Et;
      repeat split; assumption.
  - eexists. split; [reflexivity |]. cbn. rewrite Hrx1. repeat split; assumption.
Qed.

Lemma parse_END_to_blank fuel w bs rest :
  protocolState w = END ->
  rx w = (bs ++ "" :: rest)%list ->
  Forall nonblank bs ->
  (List.length bs <= fuel)%nat ->
  exists w', parseRecvBuffer fuel w = Done w' /\
             rx w' = rest /\
             apiCall w' = apiCall w /\
             tx w' = tx w /\
             protocolState w' = EMPTY.
Proof.
  intros Hps Hrx Hall Hfuel.
  destruct (flush_loop_to_blank bs fuel w rest Hrx Hall Hfuel)
    as (w1 & Hdone & Hrx1 & (_ & K2 & K3 & _) & _).
  rewrite (parse_END _ _ Hps), Hdone. cbn [bind]. cbv zeta.
  eexists. split; [reflexivity |].
  cbn. rewrite Hrx1. repeat split; assumption.
Qed.

(** ** The pump of the scheduler *)

Lemma pump_nil fuel w : rx w = [] -> pump fuel w = Done w.
Proof.
  intros H. destruct fuel; cbn [pump]; unfold socket_received_line; now rewrite H.
Qed.

Lemma pump_cons fuel w l ls :
  rx w = l :: ls ->
  pump (S fuel) w = parseRecvBuffer (S fuel) w >>= pump fuel.
Proof.
  intros H. cbn [pump]. unfold socket_received_line. now rewrite H.
Qed.

Lemma pump_cons_0 w l ls : rx w = l :: ls -> pump 0 w = Spin w.
Proof.
  intros H. cbn [pump]. unfold socket_received_line. now rewrite H.
Qed.

(** With no complete line buffered the pump does not call the parser, in
    any protocol state. *)
Lemma pump_no_line_noop fuel w :
  socket_received_line SERVER_SOCKET w = false -> pump fuel w = Done w.
Proof.
  unfold socket_received_line. intros H. apply pump_nil.
  destruct (rx w); [reflexivity | discriminate].
Qed.

(** In state [REQUEST] or [EMPTY], with lines buffered of which none names
    a method, the pump does not return, whatever the fuel. *)
Lemma pump_REQUEST_spins fuel w :
  protocolState w = REQUEST ->
  rx w <> [] ->
  Forall (fun l => method_of l = NONE) (rx w) ->
  exists w', pump fuel w = Spin w' /\ keeps w w' /\ extends parser_event w w'.
Proof.
  intros Hps Hne Hall.
  destruct (rx w) as [|l ls] eqn:Hrx; [contradiction |].
  destruct fuel as [|fuel].
  - exists w. rewrite (pump_cons_0 _ _ _ Hrx).
    split; [reflexivity |]. split; [apply keeps_refl | apply extends_refl].
  - rewrite (pump_cons _ _ _ _ Hrx), (parse_REQUEST _ _ Hps).
    destruct (request_loop_spins (S fuel) w) as (w1 & Hspin & K & E & _).
    { now rewrite Hrx. }
    exists w1. rewrite Hspin. cbn [bind]. repeat split; try apply K. exact E.
Qed.

Lemma pump_EMPTY_spins fuel w :
  protocolState w = EMPTY ->
  rx w <> [] ->
  Forall (fun l => method_of l = NONE) (rx w) ->
  exists w', pump fuel w = Spin w' /\
             (apiCall w' = apiCall w \/ apiCall w' = NONE) /\
             tx w' = tx w /\ conn w' = conn w /\
             extends parser_event w w'.
Proof.
  intros Hps Hne Hall.
  destruct (rx w) as [|l ls] eqn:Hrx; [contradiction |].
  destruct fuel as [|fuel].
  - exists w. rewrite (pump_cons_0 _ _ _ Hrx).
    split; [reflexivity |]. split; [now left |].
    repeat split. apply extends_refl.
  - rewrite (pump_cons _ _ _ _ Hrx), (parse_EMPTY _ _ Hps).
    unfold socket_received_line. rewrite Hrx. cbn [bind].
    destruct (pump_REQUEST_spins fuel (set_protocolState REQUEST (set_apiCall NONE w)))
      as (w1 & Hspin & (_ & K2 & K3 & K4 & _) & E).
    { reflexivity. }
    { cbn. now rewrite Hrx. }
    { cbn. now rewrite Hrx. }
    exists w1. split; [exact Hspin |]. split; [now right |].
    repeat split; try assumption.
Qed.

(** C4, at the failing input.  With the request [POST /vpd HTTP/1.1],
    [Host: x], blank line buffered in state [EMPTY], the pump of the
    scheduler never returns, whatever the fuel: parsing does not complete
    and the dispatch [switch] is not reached.  [apiCall] is [NONE] and no
    byte has been written while it spins. *)
Theorem unrecognised_request_never_dispatched :
  forall fuel,
    exists w', pump fuel (in_state EMPTY ["POST /vpd HTTP/1.1"; "Host: x"; ""]) = Spin w' /\
               apiCall w' = NONE /\ tx w' = "".
Proof.
  intros fuel.
  destruct (pump_EMPTY_spins fuel (in_state EMPTY ["POST /vpd HTTP/1.1"; "Host: x"; ""]))
    as (w' & Hspin & Hapi & Htx & _).
  - reflexivity.
  - discriminate.
  - repeat constructor.
  - exists w'. split; [exact Hspin |]. split; [| exact Htx].
    destruct Hapi as [H | H]; exact H.
Qed.

(** ** A whole request, fully buffered *)

(** The first two calls: [EMPTY] to [REQUEST], then the request line and
    the line behind it are dropped. *)
Lemma pump_request_line fuel w m ls :
  protocolState w = EMPTY ->
  rx w = m :: ls ->
  method_of m <> NONE ->
  exists w2, pump (S (S fuel)) w = pump fuel w2 /\
             protocolState w2 = HEADER /\
             apiCall w2 = method_of m /\
             rx w2 = tl ls.
Proof.
  intros Hps Hrx Hm.
  rewrite (pump_cons _ _ _ _ Hrx), (parse_EMPTY _ _ Hps).
  unfold socket_received_line. rewrite Hrx. cbn [bind].
  set (w1 := set_protocolState REQUEST (set_apiCall NONE w)).
  assert (Hrx1 : rx w1 = m :: ls) by exact Hrx.
  rewrite (pump_cons _ _ _ _ Hrx1), (parse_REQUEST _ w1 eq_refl).
  destruct (request_pass_match fuel w1 m ls Hrx1 Hm)
    as (w2 & Hdone & Hrx2 & Hapi & _).
  rewrite Hdone. cbn [bind].
  exists (set_protocolState HEADER w2). repeat split; assumption.
Qed.

Lemma pump_request fuel w r :
  valid_request r ->
  req_headers r <> [] \/ req_body r <> None ->
  protocolState w = EMPTY ->
  rx w = lines_of r ->
  (List.length (lines_of r) + 4 <= fuel)%nat ->
  exists w', pump fuel w = Done w' /\
             protocolState w' = state_after_request r (rx_tail w') /\
             apiCall w' = method_of (req_line r) /\
             rx w' = [].
Proof.
  destruct r as [m hs body]. unfold valid_request, lines_of, state_after_request.
  cbn [req_line req_headers req_body].
  intros (Hm & Hhs & Hbody) Hshape Hps Hrx Hfuel.
  destruct fuel as [|[|[|[|fuel]]]]; try (cbn in Hfuel; lia).
  cbn [List.length] in Hfuel. rewrite !length_app in Hfuel. cbn [List.length] in Hfuel.
  destruct hs as [|h hs].
  - (* no header line: the blank line goes with the request line, the body
       is taken for the headers *)
    destruct body as [bs|]; [| destruct Hshape as [H | H]; now elim H].
    cbn [app] in Hrx.
    destruct (pump_request_line (S (S fuel)) w m ("" :: bs ++ [""])%list Hps Hrx Hm)
      as (w2 & Heq & Hps2 & Hapi2 & Hrx2).
    rewrite Heq.
    destruct (parse_HEADER_to_blank (S (S fuel)) w2 bs [] Hps2 Hrx2 Hbody)
      as (w3 & Hdone & Hrx3 & Hapi3 & _ & Hps3).
    { rewrite length_app in Hfuel. cbn in Hfuel. lia. }
    assert (Hne : exists l ls, rx w2 = l :: ls).
    { rewrite Hrx2. destruct bs; cbn; eauto. }
    destruct Hne as (l & ls & Hne).
    rewrite (pump_cons _ _ _ _ Hne), Hdone. cbn [bind].
    exists w3. split; [now apply pump_nil |].
    repeat split; congruence.
  - inversion Hhs as [|? ? Hh Hhs']; subst.
    cbn [app] in Hrx. cbn [List.length] in Hfuel.
    destruct (pump_request_line (S (S fuel)) w m _ Hps Hrx Hm)
      as (w2 & Heq & Hps2 & Hapi2 & Hrx2).
    rewrite Heq.
    assert (Hne : exists l ls, rx w2 = l :: ls).
    { rewrite Hrx2. destruct hs; cbn; eauto. }
    destruct Hne as (l & ls & Hne).
    rewrite (pump_cons _ _ _ _ Hne).
    destruct (parse_HEADER_to_blank (S (S fuel)) w2 hs _ Hps2 Hrx2 Hhs')
      as (w3 & Hdone & Hrx3 & Hapi3 & _ & Hps3); [lia |].
    rewrite Hdone. cbn [bind].
    destruct body as [bs|].
    + (* a body follows: [END] drops it *)
      assert (Hps3' : protocolState w3 = END).
      { rewrite Hps3. destruct bs; reflexivity. }
      assert (Hne3 : exists l3 ls3, rx w3 = l3 :: ls3).
      { rewrite Hrx3. destruct bs; cbn; eauto. }
      destruct Hne3 as (l3 & ls3 & Hne3).
      rewrite (pump_cons _ _ _ _ Hne3).
      destruct (parse_END_to_blank (S fuel) w3 bs [] Hps3' Hrx3 Hbody)
        as (w4 & Hdone4 & Hrx4 & Hapi4 & _ & Hps4).
      { rewrite length_app in Hfuel. cbn in Hfuel. lia. }
      rewrite Hdone4. cbn [bind].
      exists w4. split; [now apply pump_nil |].
      repeat split; congruence.
    + exists w3. split; [now apply pump_nil |].
      repeat split; congruence.
Qed.

(** ** Requests the parser does not get through *)

Lemma pump_HEADER_spins fuel w :
  protocolState w = HEADER ->
  rx w <> [] ->
  Forall nonblank (rx w) ->
  exists w', pump fuel w = Spin w'.
Proof.
  intros Hps Hne Hall.
  destruct (rx w) as [|l ls] eqn:Hrx; [contradiction |].
  destruct fuel as [|fuel].
  - exists w. exact (pump_cons_0 _ _ _ Hrx).
  - rewrite (pump_cons _ _ _ _ Hrx), (parse_HEADER _ _ Hps).
    destruct (flush_loop_spins (S fuel) w) as (w1 & Hspin & _).
    { now rewrite Hrx. }
    exists w1. now rewrite Hspin.
Qed.

Lemma app_nonblank t l : nonblank l -> nonblank (t ++ l).
Proof.
  unfold nonblank. intros Hl H. destruct t as [|c t]; [exact (Hl H) | discriminate H].
Qed.

(** C3, at two failing inputs.  The valid GET request without header lines
    and without a body, fully buffered: the pump returns, but the flush
    that follows the match has dropped the blank line with the request line
    and the parser rests in [HEADER], not in [EMPTY].  The valid GET request
    with one header line arriving a line per scheduler iteration: the pump
    called on the header line alone finds no blank line in the [HEADER]
    loop and does not return, whatever the fuel. *)
Theorem bare_or_split_request_not_parsed :
  (forall fuel,
     exists w',
       feed (S (S fuel)) [["GET /vpd HTTP/1.1"; ""]] boot_world = Done w' /\
       protocolState w' = HEADER /\ apiCall w' = GET /\ rx w' = []) /\
  (forall fuel,
     exists w',
       feed fuel [["GET /vpd HTTP/1.1"]; ["Host: x"]; [""]] boot_world = Spin w').
Proof.
  split.
  - intros fuel. cbn [feed].
    destruct (pump_request_line fuel (arrive ["GET /vpd HTTP/1.1"; ""] boot_world)
                "GET /vpd HTTP/1.1" [""] eq_refl eq_refl)
      as (w2 & Heq & Hps2 & Hapi2 & Hrx2); [discriminate |].
    exists w2. rewrite Heq, (pump_nil _ _ Hrx2). cbn [bind feed].
    repeat split; assumption.
  - intros fuel. cbn [feed].
    destruct fuel as [|[|fuel]]; [eexists; reflexivity | eexists; reflexivity |].
    destruct (pump_request_line fuel (arrive ["GET /vpd HTTP/1.1"] boot_world)
                "GET /vpd HTTP/1.1" [] eq_refl eq_refl)
      as (w2 & Heq & Hps2 & _ & Hrx2); [discriminate |].
    rewrite Heq, (pump_nil _ _ Hrx2). cbn [bind feed].
    destruct (pump_HEADER_spins (S (S fuel)) (arrive ["Host: x"] w2)) as (w3 & Hspin).
    + exact Hps2.
    + unfold arrive. cbn [rx set_rx set_rx_tail]. rewrite Hrx2. discriminate.
    + unfold arrive. cbn [rx set_rx set_rx_tail]. rewrite Hrx2.
      repeat constructor. apply app_nonblank. discriminate.
    + exists w3. rewrite Hspin. reflexivity.
Qed.

(** C7, counterexample.  Entered with [protocolState = 4], the call
    returns with [protocolState] still 4, not [EMPTY]. *)
Lemma invalid_state_not_reset :
  ~ (exists fuel w',
       parseRecvBuffer fuel (in_state 4 ["GET /vpd HTTP/1.1"]) = Done w' /\
       protocolState w' = EMPTY).
Proof.
  intros (fuel & w' & H & Hps).
  rewrite parse_default in H by discriminate.
  injection H as <-. discriminate Hps.
Qed.

(** C8, counterexample.  With no line buffered, a call in state [REQUEST],
    [HEADER] or [END] is not a no-op: it does not return. *)
Lemma no_line_call_does_not_return :
  ~ (exists fuel w', parseRecvBuffer fuel (in_state REQUEST []) = Done w') /\
  ~ (exists fuel w', parseRecvBuffer fuel (in_state HEADER []) = Done w') /\
  ~ (exists fuel w', parseRecvBuffer fuel (in_state END []) = Done w').
Proof.
  repeat split; intros (fuel & w' & H).
  - rewrite parse_REQUEST in H by reflexivity.
    destruct (request_loop_spins fuel (in_state REQUEST [])) as (w1 & Hspin & _);
      [constructor |].
    rewrite Hspin in H. discriminate H.
  - rewrite parse_HEADER in H by reflexivity.
    destruct (flush_loop_spins fuel (in_state HEADER [])) as (w1 & Hspin & _);
      [constructor |].
    rewrite Hspin in H. discriminate H.
  - rewrite parse_END in H by reflexivity.
    destruct (flush_loop_spins fuel (in_state END [])) as (w1 & Hspin & _);
      [constructor |].
    rewrite Hspin in H. discriminate H.
Qed.

(** ** Text written to the connection *)

Lemma str_app_assoc (a b c : string) : ((a ++ b) ++ c = a ++ (b ++ c))%string.
Proof. induction a as [|x a IH]; cbn; [reflexivity | now rewrite IH]. Qed.

Lemma str_app_nil_r (a : string) : (a ++ "" = a)%string.
Proof. induction a as [|x a IH]; cbn; [reflexivity | now rewrite IH]. Qed.

Lemma wrote_nil w : wrote "" w w.
Proof.
  unfold wrote. rewrite str_app_nil_r. repeat split. apply extends_refl.
Qed.

Lemma wrote_trans t1 t2 w1 w2 w3 :
  wrote t1 w1 w2 -> wrote t2 w2 w3 -> wrote (t1 ++ t2) w1 w3.
Proof.
  unfold wrote.
  intros (A & A1 & A2 & A3 & A4 & A5 & A6 & A7 & A8 & A9)
         (B & B1 & B2 & B3 & B4 & B5 & B6 & B7 & B8 & B9).
  split; [now rewrite B, A, str_app_assoc |].
  repeat split; try congruence.
  eapply extends_trans; eassumption.
Qed.

Lemma wrote_writestr s str w : wrote str w (socket_writestr s str w).
Proof.
  unfold wrote. repeat split.
  exists [Ev_socket_write s str]. split; [reflexivity | repeat constructor].
Qed.

Lemma wrote_writechar s c w : wrote (char_text c) w (socket_writechar s c w).
Proof.
  unfold wrote. repeat split.
  exists [Ev_socket_write s (char_text c)]. split; [reflexivity | repeat constructor].
Qed.

Lemma wrote_writequotedstring s str w :
  wrote (quoted str) w (socket_writequotedstring s str w).
Proof.
  unfold wrote. repeat split.
  exists [Ev_socket_write s (quoted str)]. split; [reflexivity | repeat constructor].
Qed.

Section ControllerProperties.

Variable fmt : formats.


Lemma wrote_writedec32 s v w :
  wrote (dec32_text fmt v) w (socket_writedec32 fmt s v w).
Proof. apply wrote_writestr. Qed.

Lemma wrote_writedate s d w :
  wrote (date_text fmt d) w (socket_writedate fmt s d w).
Proof. apply wrote_writestr. Qed.

Lemma wrote_write_macaddress s m w :
  wrote (macaddress_text fmt m) w (socket_write_macaddress fmt s m w).
Proof. apply wrote_writestr. Qed.

Lemma wrote_steps_cons f fs t ts w :
  (forall w0, wrote t w0 (f w0)) ->
  (forall w0, wrote ts w0 (steps fs w0)) ->
  wrote (t ++ ts) w (steps (f :: fs) w).
Proof.
  intros Hf Hfs. change (steps (f :: fs) w) with (steps fs (f w)).
  eapply wrote_trans; [apply Hf | apply Hfs].
Qed.

Lemma wrote_steps_nil w : wrote "" w (steps [] w).
Proof. apply wrote_nil. Qed.

Lemma wrote_ext t t' w w' : wrote t w w' -> t = t' -> wrote t' w w'.
Proof. now intros H <-. Qed.

Ltac wrote_step :=
  first [ apply wrote_writestr | apply wrote_writechar
        | apply wrote_writequotedstring | apply wrote_writedec32
        | apply wrote_writedate | apply wrote_write_macaddress ].

Ltac wrote_steps :=
  repeat (eapply wrote_steps_cons; [intros; wrote_step | intros]);
  apply wrote_steps_nil.

(** The four header writes and the JSON object up to the log array. *)
Lemma getCall_head_wrote w :
  wrote ("HTTP/1.1 200 OK" ++ "Content-Type: application/vnd.api+json" ++
         "Connection: close" ++ CRLF ++ CRLF ++ json_head fmt w)
        w (getCall_head fmt w).
Proof.
  eapply wrote_ext.
  - unfold getCall_head, _writeColon, _writeComma, _writeCloseBracket.
    wrote_steps.
  - unfold json_head, quoted. rewrite ?str_app_assoc, ?str_app_nil_r. reflexivity.
Qed.

(** ** The log array *)

Lemma int_incr_small i : i < INT_MAX -> int_incr i = i + 1.
Proof. intros H. unfold int_incr. apply Z.ltb_lt in H. now rewrite H. Qed.

(** One pass through the body of the [for] loop. *)
Lemma log_loop_pass fuel i w :
  (i < List.length (log w))%nat ->
  log_get_num_entries w <= INT_MAX ->
  exists w1,
    log_loop fmt (S fuel) (Z.of_nat i) w = log_loop fmt fuel (Z.of_nat (S i)) w1 /\
    wrote (log_entry_text fmt (log_get_record (Z.of_nat i) w) ++
           (if (S i <? List.length (log w))%nat then "," else ""))
          w w1.
Proof.
  intros Hi Hmax. unfold log_get_num_entries in Hmax.
  cbn [log_loop].
  assert (Hc : (Z.of_nat i <? log_get_num_entries w) = true).
  { apply Z.ltb_lt. unfold log_get_num_entries. lia. }
  rewrite Hc.
  destruct (log_get_record (Z.of_nat i) w) as [time eventnum].
  rewrite int_incr_small by (unfold INT_MAX in *; lia).
  replace (Z.of_nat i + 1) with (Z.of_nat (S i)) by lia.
  set (w1 := steps _ w).
  assert (H1 : wrote (log_entry_text fmt (time, eventnum)) w w1).
  { eapply wrote_ext.
    - unfold w1, _writeColon, _writeComma. wrote_steps.
    - unfold log_entry_text, quoted. cbn [fst snd].
      rewrite ?str_app_assoc, ?str_app_nil_r. reflexivity. }
  assert (Hlog : log w1 = log w) by apply H1.
  unfold log_get_num_entries. rewrite Hlog.
  destruct (S i <? List.length (log w))%nat eqn:Hlast.
  - apply Nat.ltb_lt in Hlast.
    assert (Hc2 : (Z.of_nat i <? Z.of_nat (List.length (log w)) - 1) = true)
      by (apply Z.ltb_lt; lia).
    rewrite Hc2. eexists. split; [reflexivity |].
    eapply wrote_trans; [exact H1 | apply wrote_writechar].
  - apply Nat.ltb_ge in Hlast.
    assert (Hc2 : (Z.of_nat i <? Z.of_nat (List.length (log w)) - 1) = false)
      by (apply Z.ltb_ge; lia).
    rewrite Hc2. exists w1. split; [reflexivity |].
    eapply wrote_trans; [exact H1 | apply wrote_nil].
Qed.

(** The elements [i .. i + k - 1] of the log array. *)
Lemma log_loop_wrote k : forall fuel i w,
  (i + k = List.length (log w))%nat ->
  log_get_num_entries w <= INT_MAX ->
  (k <= fuel)%nat ->
  exists w',
    log_loop fmt fuel (Z.of_nat i) w = Done w' /\
    wrote (String.concat ","
             (map (fun j => log_entry_text fmt (log_get_record (Z.of_nat j) w))
                  (seq i k)))
          w w'.
Proof.
  induction k as [|k IH]; intros fuel i w Hik Hmax Hfuel.
  - exists w. split; [| apply wrote_nil].
    assert (Hc : (Z.of_nat i <? log_get_num_entries w) = false).
    { apply Z.ltb_ge. unfold log_get_num_entries. lia. }
    destruct fuel; cbn [log_loop]; now rewrite Hc.
  - destruct fuel as [|fuel]; [lia |].
    destruct (log_loop_pass fuel i w ltac:(lia) Hmax) as (w1 & Heq & H1).
    assert (Hlog : log w1 = log w) by apply H1.
    destruct (IH fuel (S i) w1) as (w' & Hdone & H2).
    { rewrite Hlog. lia. }
    { unfold log_get_num_entries in *. now rewrite Hlog. }
    { lia. }
    exists w'. rewrite Heq. split; [exact Hdone |].
    eapply wrote_ext; [eapply wrote_trans; [exact H1 | exact H2] |].
    unfold log_get_record. rewrite Hlog.
    cbn [seq map].
    destruct k as [|k].
    + assert (Hl : (S i <? List.length (log w))%nat = false)
        by (apply Nat.ltb_ge; lia).
      rewrite Hl. cbn [seq map String.concat]. now rewrite !str_app_nil_r.
    + assert (Hl : (S i <? List.length (log w))%nat = true)
        by (apply Nat.ltb_lt; lia).
      rewrite Hl. cbn [seq map String.concat].
      now rewrite str_app_assoc.
Qed.

(** Whether or not the loop returns, what has happened is writes to the
    connection. *)
Lemma log_loop_wrote_some fuel : forall i w,
  exists t, wrote t w (world_of (log_loop fmt fuel i w)).
Proof.
  induction fuel as [|fuel IH]; intros i w.
  - exists "". cbn [log_loop].
    destruct (i <? log_get_num_entries w); apply wrote_nil.
  - cbn [log_loop].
    destruct (i <? log_get_num_entries w); [| exists ""; apply wrote_nil].
    destruct (log_get_record i w) as [time eventnum].
    set (w1 := steps _ w).
    assert (H1 : exists t, wrote t w w1).
    { eexists. unfold w1, _writeColon, _writeComma. wrote_steps. }
    destruct H1 as (t1 & H1).
    set (w2 := if i <? log_get_num_entries w1 - 1 then _writeComma w1 else w1).
    assert (H2 : exists t, wrote t w1 w2).
    { unfold w2. destruct (i <? log_get_num_entries w1 - 1).
      - eexists. apply wrote_writechar.
      - exists "". apply wrote_nil. }
    destruct H2 as (t2 & H2).
    destruct (IH (int_incr i) w2) as (t3 & H3).
    eexists. eapply wrote_trans; [exact H1 |].
    eapply wrote_trans; [exact H2 | exact H3].
Qed.

Lemma getCall_tail_wrote w :
  wrote ("]}" ++ CRLF) w
        (steps [ socket_writechar SERVER_SOCKET "]"; _writeCloseBracket;
                 socket_writestr SERVER_SOCKET CRLF ] w).
Proof.
  eapply wrote_ext.
  - unfold _writeCloseBracket. wrote_steps.
  - reflexivity.
Qed.

(** The whole response of a [getCall] that returns. *)
Lemma getCall_wrote fuel w :
  log_get_num_entries w <= INT_MAX ->
  (List.length (log w) <= fuel)%nat ->
  exists w',
    getCall fmt fuel w = Done w' /\
    wrote ("HTTP/1.1 200 OK" ++ "Content-Type: application/vnd.api+json" ++
           "Connection: close" ++ CRLF ++ CRLF ++
           json_head fmt w ++ log_array_text fmt w ++ "]}" ++ CRLF)
          w w'.
Proof.
  intros Hmax Hfuel. unfold getCall.
  pose proof (getCall_head_wrote w) as H1.
  assert (Hlog : log (getCall_head fmt w) = log w) by apply H1.
  destruct (log_loop_wrote (List.length (log w)) fuel 0 (getCall_head fmt w))
    as (w2 & Hdone & H2).
  { now rewrite Hlog. }
  { unfold log_get_num_entries in *. now rewrite Hlog. }
  { exact Hfuel. }
  change (Z.of_nat 0) with 0 in Hdone. rewrite Hdone. cbn [bind].
  eexists. split; [reflexivity |].
  eapply wrote_ext.
  - eapply wrote_trans; [exact H1 |].
    eapply wrote_trans; [exact H2 | apply getCall_tail_wrote].
  - unfold log_array_text, log_get_num_entries, log_get_record.
    rewrite Hlog, Nat2Z.id, ?str_app_assoc. reflexivity.
Qed.

Lemma getCall_wrote_some fuel w :
  exists t, wrote ("HTTP/1.1 200 OK" ++ "Content-Type: application/vnd.api+json" ++
                   "Connection: close" ++ CRLF ++ CRLF ++ json_head fmt w ++ t)
                  w (world_of (getCall fmt fuel w)).
Proof.
  unfold getCall.
  pose proof (getCall_head_wrote w) as H1.
  destruct (log_loop_wrote_some fuel 0 (getCall_head fmt w)) as (t2 & H2).
  destruct (log_loop fmt fuel 0 (getCall_head fmt w)) as [w2 | w2]; cbn [bind world_of] in *.
  - eexists. eapply wrote_ext.
    + eapply wrote_trans; [exact H1 |].
      eapply wrote_trans; [exact H2 | apply getCall_tail_wrote].
    + rewrite ?str_app_assoc. reflexivity.
  - eexists. eapply wrote_ext.
    + eapply wrote_trans; [exact H1 | exact H2].
    + rewrite ?str_app_assoc. reflexivity.
Qed.

Lemma prefix_app_l a : forall b c, prefix (a ++ b) (a ++ c) = prefix b c.
Proof.
  induction a as [|x a IH]; intros b c; cbn; [reflexivity |].
  destruct (ascii_dec x x) as [_ | N]; [apply IH | now elim N].
Qed.

(** C5, at every input.  The bytes [getCall] puts on the connection begin
    with the status text, the content-type header and the
    [Connection: close] header with no line terminator between the first
    two and the second two: only [Connection: close] and the blank line are
    terminated, so the response does not begin with the status line
    [HTTP/1.1 200 OK] terminated as a line.  The JSON object follows the
    blank line. *)
Theorem getCall_status_line_unterminated fuel w :
  (exists rest,
     tx (world_of (getCall fmt fuel w)) =
       tx w ++ "HTTP/1.1 200 OK" ++ "Content-Type: application/vnd.api+json" ++
       "Connection: close" ++ CRLF ++ CRLF ++ "{" ++ rest) /\
  prefix (tx w ++ "HTTP/1.1 200 OK" ++ CRLF) (tx (world_of (getCall fmt fuel w))) = false.
Proof.
  destruct (getCall_wrote_some fuel w) as (t & Ht & _).
  split.
  - rewrite Ht. unfold json_head. rewrite ?str_app_assoc. eexists. reflexivity.
  - rewrite Ht, prefix_app_l. reflexivity.
Qed.

(** C6.  With a log of at most [INT_MAX] records, [getCall] returns, and
    the bytes it has put on the connection are the header text, the JSON
    object up to the log array, the log array and the closing text, where
    the array has one element per [i] below [log_get_num_entries()], made
    of the timestamp and the event of [log_get_record(i)], in the order of
    the log, with a comma between two elements and none before the closing
    bracket. *)
Theorem getCall_log_array fuel w :
  log_get_num_entries w <= INT_MAX ->
  (List.length (log w) <= fuel)%nat ->
  exists w',
    getCall fmt fuel w = Done w' /\
    tx w' = tx w ++ "HTTP/1.1 200 OK" ++ "Content-Type: application/vnd.api+json" ++
            "Connection: close" ++ CRLF ++ CRLF ++
            json_head fmt w ++
            String.concat ","
              (map (fun i => log_entry_text fmt (log_get_record (Z.of_nat i) w))
                   (seq 0 (Z.to_nat (log_get_num_entries w)))) ++
            "]}" ++ CRLF.
Proof.
  intros Hmax Hfuel.
  destruct (getCall_wrote fuel w Hmax Hfuel) as (w' & Hdone & Ht & _).
  exists w'. split; [exact Hdone | exact Ht].
Qed.

(** ** Calls made by the parser and by the dispatcher *)

Lemma extends_same_trace P w w' : trace w' = trace w -> extends P w w'.
Proof. intros H. exists []. split; [now rewrite app_nil_r | constructor]. Qed.

Lemma request_loop_extends fuel : forall w,
  extends parser_event w (world_of (request_loop fuel w)).
Proof.
  induction fuel as [|fuel IH]; intros w; [apply extends_refl |].
  cbn [request_loop].
  pose proof (recv_compare_extends SERVER_SOCKET "GET " w) as X1.
  destruct (socket_recv_compare SERVER_SOCKET "GET " w) as [m1 w1].
  cbn [snd] in X1. destruct m1.
  { cbn. eapply extends_trans; [exact X1 |].
    apply (flush_line_extends SERVER_SOCKET (set_apiCall GET w1)). }
  pose proof (recv_compare_extends SERVER_SOCKET "PUT " w1) as X2.
  destruct (socket_recv_compare SERVER_SOCKET "PUT " w1) as [m2 w2].
  cbn [snd] in X2. destruct m2.
  { cbn. eapply extends_trans; [exact X1 |]. eapply extends_trans; [exact X2 |].
    apply (flush_line_extends SERVER_SOCKET (set_apiCall PUT w2)). }
  pose proof (recv_compare_extends SERVER_SOCKET "DELETE " w2) as X3.
  destruct (socket_recv_compare SERVER_SOCKET "DELETE " w2) as [m3 w3].
  cbn [snd] in X3. destruct m3.
  { cbn. eapply extends_trans; [exact X1 |]. eapply extends_trans; [exact X2 |].
    eapply extends_trans; [exact X3 |].
    apply (flush_line_extends SERVER_SOCKET (set_apiCall DELETE w3)). }
  change (0 =? 0) with true. cbv iota.
  eapply extends_trans; [exact X1 |]. eapply extends_trans; [exact X2 |].
  eapply extends_trans; [exact X3 |].
  eapply extends_trans; [apply flush_line_extends | apply IH].
Qed.

Lemma flush_loop_extends fuel : forall w,
  extends parser_event w (world_of (flush_loop fuel w)).
Proof.
  induction fuel as [|fuel IH]; intros w; cbn [flush_loop];
    destruct (socket_is_blank_line SERVER_SOCKET w); try apply extends_refl.
  eapply extends_trans; [apply flush_line_extends | apply IH].
Qed.

Lemma parseRecvBuffer_extends fuel w :
  extends parser_event w (world_of (parseRecvBuffer fuel w)).
Proof.
  unfold parseRecvBuffer.
  destruct (protocolState w =? EMPTY).
  { destruct (socket_received_line SERVER_SOCKET w);
      [now apply extends_same_trace | apply extends_refl]. }
  destruct (protocolState w =? REQUEST).
  { pose proof (request_loop_extends fuel w) as X.
    destruct (request_loop fuel w) as [w1 | w1]; cbn [bind world_of] in *; [| exact X].
    eapply extends_trans; [exact X | now apply extends_same_trace]. }
  destruct (protocolState w =? HEADER).
  { pose proof (flush_loop_extends fuel w) as X.
    destruct (flush_loop fuel w) as [w1 | w1]; cbn [bind world_of] in *; [| exact X].
    cbv zeta. eapply extends_trans; [exact X |].
    eapply extends_trans; [apply (flush_line_extends SERVER_SOCKET) |].
    destruct (socket_recv_available SERVER_SOCKET (socket_flush_line SERVER_SOCKET w1) >? 0);
      now apply extends_same_trace. }
  destruct (protocolState w =? END).
  { pose proof (flush_loop_extends fuel w) as X.
    destruct (flush_loop fuel w) as [w1 | w1]; cbn [bind world_of] in *; [| exact X].
    cbv zeta. eapply extends_trans; [exact X |].
    eapply extends_trans; [apply (flush_line_extends SERVER_SOCKET) |].
    now apply extends_same_trace. }
  apply extends_emit. exact I.
Qed.

Lemma pump_extends fuel : forall w,
  extends parser_event w (world_of (pump fuel w)).
Proof.
  induction fuel as [|fuel IH]; intros w; cbn [pump];
    destruct (socket_received_line SERVER_SOCKET w); try apply extends_refl.
  pose proof (parseRecvBuffer_extends (S fuel) w) as X.
  destruct (parseRecvBuffer (S fuel) w) as [w1 | w1]; cbn [bind world_of] in *; [| exact X].
  eapply extends_trans; [exact X | apply IH].
Qed.

Lemma dispatch_extends fuel w :
  extends dispatch_event w (world_of (dispatch fmt fuel w)).
Proof.
  unfold dispatch.
  destruct (apiCall w =? NONE); [apply extends_refl |].
  destruct (apiCall w =? GET).
  { destruct (getCall_wrote_some fuel w) as (t & H). apply H. }
  destruct (apiCall w =? PUT); [apply extends_emit; exact I |].
  destruct (apiCall w =? DELETE); [apply extends_emit; exact I |].
  apply extends_refl.
Qed.

(** ** One scheduler iteration *)

(** The iteration up to the test for buffered input: the watchdog reset,
    the LED update, then calls of the sampling and lifecycle steps only.
    Parser state, receive buffer and bytes written are untouched. *)
Lemma main_loop_body_prologue inp fuel w :
  exists w3 evs,
    main_loop_body fmt inp fuel w =
      (if socket_received_line SERVER_SOCKET w3 then
         pump fuel w3 >>= fun w =>
         dispatch fmt fuel w >>= fun w =>
         Done (socket_disconnect SERVER_SOCKET w)
       else Done (config_update (log_update w3))) /\
    trace w3 = (trace w ++ Ev_wdt_reset :: Ev_led_update :: evs)%list /\
    Forall housekeeping_event evs /\
    protocolState w3 = protocolState w /\ apiCall w3 = apiCall w /\
    rx w3 = rx w /\ tx w3 = tx w.
Proof.
  destruct w as [ps ac ct rxw rxt txw c lg v cf tr].
  destruct inp as [d t recs].
  unfold main_loop_body, delay_isdone. cbn [delay_1_done].
  destruct d; destruct c; cbn -[pump dispatch socket_received_line];
    eexists; eexists; (split; [reflexivity |]);
    cbn; rewrite <- ?app_assoc; cbn;
    (split; [reflexivity |]); repeat split; repeat constructor.
Qed.

(** From the test for buffered input to the end of the iteration. *)
Lemma main_loop_body_epilogue_extends (Q : event -> Prop) fuel w3 :
  (forall e, request_event e -> Q e) ->
  Q (Ev_socket_disconnect SERVER_SOCKET) -> Q Ev_log_update -> Q Ev_config_update ->
  extends Q w3
    (world_of
       (if socket_received_line SERVER_SOCKET w3 then
          pump fuel w3 >>= fun w =>
          dispatch fmt fuel w >>= fun w =>
          Done (socket_disconnect SERVER_SOCKET w)
        else Done (config_update (log_update w3)))).
Proof.
  intros HQ Hd Hl Hc.
  destruct (socket_received_line SERVER_SOCKET w3).
  - pose proof (pump_extends fuel w3) as X.
    apply (extends_weaken _ Q) in X; [| intros e He; apply HQ; now left].
    destruct (pump fuel w3) as [w4 | w4]; cbn [bind world_of] in *; [| exact X].
    pose proof (dispatch_extends fuel w4) as Y.
    apply (extends_weaken _ Q) in Y; [| intros e He; apply HQ; now right].
    destruct (dispatch fmt fuel w4) as [w5 | w5]; cbn [bind world_of] in *.
    + eapply extends_trans; [exact X |]. eapply extends_trans; [exact Y |].
      exists [Ev_socket_disconnect SERVER_SOCKET]. split; [reflexivity | now constructor].
    + eapply extends_trans; [exact X | exact Y].
  - cbn [world_of]. eapply extends_trans; apply extends_emit; assumption.
Qed.

(** C2.  Whatever the inputs, the state and the branches taken, and whether
    or not the iteration returns, the calls of one scheduler iteration begin
    with [wdt_reset], followed by [led_update]; every call of the sampling
    step, of the connection lifecycle step and of the protocol pump comes
    after them, and the watchdog is not reset a second time in the
    iteration. *)
Theorem watchdog_reset_first inp fuel w :
  exists rest,
    trace (world_of (main_loop_body fmt inp fuel w)) =
      (trace w ++ Ev_wdt_reset :: Ev_led_update :: rest)%list /\
    ~ In Ev_wdt_reset rest.
Proof.
  destruct (main_loop_body_prologue inp fuel w) as (w3 & evs & Heq & Ht & Hevs & _).
  rewrite Heq.
  destruct (main_loop_body_epilogue_extends (fun e => e <> Ev_wdt_reset) fuel w3)
    as (evs' & Ht' & Hevs').
  - intros e [He | He]; destruct e; try discriminate; destruct He.
  - discriminate.
  - discriminate.
  - discriminate.
  - exists (evs ++ evs')%list. split.
    + rewrite Ht', Ht, <- app_assoc. reflexivity.
    + intros Hin. apply in_app_or in Hin. destruct Hin as [Hin | Hin].
      * rewrite Forall_forall in Hevs. exact (Hevs _ Hin).
      * rewrite Forall_forall in Hevs'. exact (Hevs' _ Hin eq_refl).
Qed.

(** When the pump and the dispatcher return, the iteration ends with the
    one [socket_disconnect] of the iteration. *)
Lemma main_loop_body_disconnects inp fuel w w' :
  socket_received_line SERVER_SOCKET w = true ->
  main_loop_body fmt inp fuel w = Done w' ->
  exists evs,
    trace w' = (trace w ++ evs ++ [Ev_socket_disconnect SERVER_SOCKET])%list /\
    ~ In (Ev_socket_disconnect SERVER_SOCKET) evs /\
    conn w' = Closed.
Proof.
  intros Hline Hdone.
  destruct (main_loop_body_prologue inp fuel w)
    as (w3 & evs & Heq & Ht & Hevs & _ & _ & Hrx & _).
  rewrite Heq in Hdone.
  assert (Hline3 : socket_received_line SERVER_SOCKET w3 = true).
  { unfold socket_received_line in *. now rewrite Hrx. }
  rewrite Hline3 in Hdone.
  pose proof (pump_extends fuel w3) as (e1 & T1 & F1).
  destruct (pump fuel w3) as [w4 | w4]; cbn [bind world_of] in *; [| discriminate].
  pose proof (dispatch_extends fuel w4) as (e2 & T2 & F2).
  destruct (dispatch fmt fuel w4) as [w5 | w5]; cbn [bind world_of] in *; [| discriminate].
  injection Hdone as <-.
  exists (Ev_wdt_reset :: Ev_led_update :: evs ++ e1 ++ e2)%list.
  split; [| split; [| reflexivity]].
  - cbn. rewrite T2, T1, Ht. rewrite <- ?app_assoc. cbn. rewrite <- ?app_assoc.
    reflexivity.
  - rewrite Forall_forall in Hevs, F1, F2.
    intros [H | [H | H]]; try discriminate.
    apply in_app_or in H. destruct H as [H | H]; [exact (Hevs _ H) |].
    apply in_app_or in H. destruct H as [H | H]; [exact (F1 _ H) | exact (F2 _ H)].
Qed.

(** C9, at the failing input.  With the lines [POST /vpd HTTP/1.1] and the
    blank line buffered in state [EMPTY], the scheduler iteration does not
    return, whatever the inputs and the fuel: the pump spins in the
    [REQUEST] loop, the dispatch [switch] is not reached, and
    [socket_disconnect] has not been called. *)
Theorem unanswered_request_never_disconnected :
  forall inp fuel,
    exists w',
      main_loop_body fmt inp fuel (in_state EMPTY ["POST /vpd HTTP/1.1"; ""]) = Spin w' /\
      ~ In (Ev_socket_disconnect SERVER_SOCKET) (trace w').
Proof.
  intros inp fuel.
  destruct (main_loop_body_prologue inp fuel (in_state EMPTY ["POST /vpd HTTP/1.1"; ""]))
    as (w3 & evs & Heq & Ht & Hevs & Hps & _ & Hrx & _).
  rewrite Heq. unfold socket_received_line. rewrite Hrx. cbn [in_state rx set_rx].
  destruct (pump_EMPTY_spins fuel w3) as (w' & Hspin & _ & _ & _ & (evs' & Ht' & Hevs')).
  - exact Hps.
  - rewrite Hrx. discriminate.
  - rewrite Hrx. repeat constructor.
  - exists w'. rewrite Hspin. split; [reflexivity |].
    rewrite Ht', Ht. cbn [in_state trace set_rx set_protocolState boot_world app].
    rewrite Forall_forall in Hevs, Hevs'.
    intros [H | [H | H]]; try discriminate.
    apply in_app_or in H. destruct H as [H | H]; [exact (Hevs _ H) | exact (Hevs' _ H)].
Qed.

End ControllerProperties.

(** * The theorems at concrete inputs *)

(** C10, as amended, on a GET request: [Host: x] goes with the request
    line. *)
Lemma request_line_then_one_flush_witness :
  exists w',
    parseRecvBuffer 1 (in_state REQUEST ["GET /vpd HTTP/1.1"; "Host: x"; "Accept: a"; ""])
      = Done w' /\
    protocolState w' = HEADER /\
    apiCall w' = GET /\
    rx w' = ["Accept: a"; ""].
Proof.
  apply (request_line_then_one_flush 1
           (in_state REQUEST ["GET /vpd HTTP/1.1"; "Host: x"; "Accept: a"; ""])
           [] "GET /vpd HTTP/1.1" ["Host: x"; "Accept: a"; ""]).
  - reflexivity.
  - reflexivity.
  - constructor.
  - vm_compute. discriminate.
  - simpl. lia.
Defined.

(** C7, as amended, with [protocolState = 4]. *)
Lemma parseRecvBuffer_invalid_state_kept_witness :
  exists w',
    parseRecvBuffer 0 (in_state 4 ["GET /vpd HTTP/1.1"]) = Done w' /\
    trace w' = [Ev_uart_writestr ("ERR: Default case entered" ++ CRLF)] /\
    protocolState w' = 4 /\
    apiCall w' = NONE /\
    rx w' = ["GET /vpd HTTP/1.1"] /\
    tx w' = "".
Proof.
  apply (parseRecvBuffer_invalid_state_kept 0 (in_state 4 ["GET /vpd HTTP/1.1"]));
    vm_compute; discriminate.
Defined.

(** C8, as amended, in state [EMPTY]. *)
Lemma parseRecvBuffer_no_line_noop_witness :
  exists w',
    parseRecvBuffer 0 (in_state EMPTY []) = Done w' /\
    protocolState w' = EMPTY /\
    apiCall w' = NONE /\
    rx w' = [].
Proof.
  apply (parseRecvBuffer_no_line_noop 0 (in_state EMPTY []));
    [reflexivity | vm_compute; discriminate ..].
Defined.

(** C6 on a log of two records. *)
Lemma getCall_log_array_witness :
  exists w',
    getCall plain_formats 2 (set_log [(10, 1); (20, 2)] boot_world) = Done w' /\
    tx w' =
      "HTTP/1.1 200 OK" ++ "Content-Type: application/vnd.api+json" ++
      "Connection: close" ++ CRLF ++ CRLF ++
      json_head plain_formats boot_world ++
      (log_entry_text plain_formats (10, 1) ++ "," ++
       log_entry_text plain_formats (20, 2)) ++
      "]}" ++ CRLF.
Proof.
  apply (getCall_log_array plain_formats 2 (set_log [(10, 1); (20, 2)] boot_world)).
  - vm_compute. discriminate.
  - simpl. lia.
Defined.

(** * Further properties of the parser *)

(** ** Relations every parser step keeps *)

Section ParserInvariant.

Variable R : world -> world -> Prop.

Hypothesis R_refl : forall w, R w w.
Hypothesis R_trans : forall w1 w2 w3, R w1 w2 -> R w2 w3 -> R w1 w3.
Hypothesis R_compare : forall s str w, R w (snd (socket_recv_compare s str w)).
Hypothesis R_flush : forall s w, R w (socket_flush_line s w).
Hypothesis R_apiCall :
  forall v w, In v [NONE; GET; PUT; DELETE] -> R w (set_apiCall v w).
Hypothesis R_state :
  forall v w, In v [EMPTY; REQUEST; HEADER; END] -> R w (set_protocolState v w).

Lemma request_loop_inv fuel : forall w, R w (world_of (request_loop fuel w)).
Proof.
  induction fuel as [|fuel IH]; intros w; [apply R_refl |].
  cbn [request_loop].
  pose proof (R_compare SERVER_SOCKET "GET " w) as X1.
  destruct (socket_recv_compare SERVER_SOCKET "GET " w) as [m1 w1].
  cbn [snd] in X1. destruct m1.
  { cbn. eapply R_trans; [exact X1 |].
    eapply R_trans; [apply (R_apiCall GET); cbn; tauto |].
    apply (R_flush SERVER_SOCKET (set_apiCall GET w1)). }
  pose proof (R_compare SERVER_SOCKET "PUT " w1) as X2.
  destruct (socket_recv_compare SERVER_SOCKET "PUT " w1) as [m2 w2].
  cbn [snd] in X2. destruct m2.
  { cbn. eapply R_trans; [exact X1 |]. eapply R_trans; [exact X2 |].
    eapply R_trans; [apply (R_apiCall PUT); cbn; tauto |].
    apply (R_flush SERVER_SOCKET (set_apiCall PUT w2)). }
  pose proof (R_compare SERVER_SOCKET "DELETE " w2) as X3.
  destruct (socket_recv_compare SERVER_SOCKET "DELETE " w2) as [m3 w3].
  cbn [snd] in X3. destruct m3.
  { cbn. eapply R_trans; [exact X1 |]. eapply R_trans; [exact X2 |].
    eapply R_trans; [exact X3 |].
    eapply R_trans; [apply (R_apiCall DELETE); cbn; tauto |].
    apply (R_flush SERVER_SOCKET (set_apiCall DELETE w3)). }
  change (0 =? 0) with true. cbv iota.
  eapply R_trans; [exact X1 |]. eapply R_trans; [exact X2 |].
  eapply R_trans; [exact X3 |].
  eapply R_trans; [apply R_flush | apply IH].
Qed.

Lemma flush_loop_inv fuel : forall w, R w (world_of (flush_loop fuel w)).
Proof.
  induction fuel as [|fuel IH]; intros w; cbn [flush_loop];
    destruct (socket_is_blank_line SERVER_SOCKET w); try apply R_refl.
  eapply R_trans; [apply R_flush | apply IH].
Qed.

(** A call entered in one of the four states. *)
Lemma parseRecvBuffer_inv_valid fuel w :
  valid_state w -> R w (world_of (parseRecvBuffer fuel w)).
Proof.
  intros Hv. unfold parseRecvBuffer.
  destruct (protocolState w =? EMPTY) eqn:E0.
  { destruct (socket_received_line SERVER_SOCKET w); [| apply R_refl].
    cbn [world_of].
    eapply R_trans; [apply (R_apiCall NONE); cbn; tauto |].
    apply R_state. cbn. tauto. }
  destruct (protocolState w =? REQUEST) eqn:E1.
  { pose proof (request_loop_inv fuel w) as X.
    destruct (request_loop fuel w) as [w1 | w1]; cbn [bind world_of] in *; [| exact X].
    eapply R_trans; [exact X |]. apply R_state. cbn. tauto. }
  destruct (protocolState w =? HEADER) eqn:E2.
  { pose proof (flush_loop_inv fuel w) as X.
    destruct (flush_loop fuel w) as [w1 | w1]; cbn [bind world_of] in *; [| exact X].
    cbv zeta. eapply R_trans; [exact X |].
    eapply R_trans; [apply (R_flush SERVER_SOCKET) |].
    destruct (socket_recv_available SERVER_SOCKET (socket_flush_line SERVER_SOCKET w1) >? 0);
      cbn [world_of]; apply R_state; cbn; tauto. }
  destruct (protocolState w =? END) eqn:E3.
  { pose proof (flush_loop_inv fuel w) as X.
    destruct (flush_loop fuel w) as [w1 | w1]; cbn [bind world_of] in *; [| exact X].
    cbv zeta. eapply R_trans; [exact X |].
    eapply R_trans; [apply (R_flush SERVER_SOCKET) |].
    apply R_state. cbn. tauto. }
  exfalso. apply Z.eqb_neq in E0, E1, E2, E3.
  unfold valid_state in Hv. cbn in Hv. intuition congruence.
Qed.

Hypothesis R_valid : forall w w', R w w' -> valid_state w -> valid_state w'.

Lemma pump_inv_valid fuel : forall w,
  valid_state w -> R w (world_of (pump fuel w)).
Proof.
  induction fuel as [|fuel IH]; intros w Hv; cbn [pump];
    destruct (socket_received_line SERVER_SOCKET w); try apply R_refl.
  pose proof (parseRecvBuffer_inv_valid (S fuel) w Hv) as X.
  destruct (parseRecvBuffer (S fuel) w) as [w1 | w1]; cbn [bind world_of] in *; [| exact X].
  eapply R_trans; [exact X |]. apply IH. exact (R_valid _ _ X Hv).
Qed.

End ParserInvariant.

Section ParserInvariantAnyState.

Variable R : world -> world -> Prop.

Hypothesis R_refl : forall w, R w w.
Hypothesis R_trans : forall w1 w2 w3, R w1 w2 -> R w2 w3 -> R w1 w3.
Hypothesis R_compare : forall s str w, R w (snd (socket_recv_compare s str w)).
Hypothesis R_flush : forall s w, R w (socket_flush_line s w).
Hypothesis R_apiCall :
  forall v w, In v [NONE; GET; PUT; DELETE] -> R w (set_apiCall v w).
Hypothesis R_state :
  forall v w, In v [EMPTY; REQUEST; HEADER; END] -> R w (set_protocolState v w).
Hypothesis R_uart : forall s w, R w (uart_writestr s w).

(** A call entered in any state, the default case included. *)
Lemma parseRecvBuffer_inv fuel w : R w (world_of (parseRecvBuffer fuel w)).
Proof.
  destruct (Z.eq_dec (protocolState w) EMPTY) as [H0 | H0];
    [apply parseRecvBuffer_inv_valid; try assumption; unfold valid_state; rewrite H0; cbn; tauto |].
  destruct (Z.eq_dec (protocolState w) REQUEST) as [H1 | H1];
    [apply parseRecvBuffer_inv_valid; try assumption; unfold valid_state; rewrite H1; cbn; tauto |].
  destruct (Z.eq_dec (protocolState w) HEADER) as [H2 | H2];
    [apply parseRecvBuffer_inv_valid; try assumption; unfold valid_state; rewrite H2; cbn; tauto |].
  destruct (Z.eq_dec (protocolState w) END) as [H3 | H3];
    [apply parseRecvBuffer_inv_valid; try assumption; unfold valid_state; rewrite H3; cbn; tauto |].
  rewrite parse_default by assumption. apply R_uart.
Qed.

Lemma pump_inv fuel : forall w, R w (world_of (pump fuel w)).
Proof.
  induction fuel as [|fuel IH]; intros w; cbn [pump];
    destruct (socket_received_line SERVER_SOCKET w); try apply R_refl.
  pose proof (parseRecvBuffer_inv (S fuel) w) as X.
  destruct (parseRecvBuffer (S fuel) w) as [w1 | w1]; cbn [bind world_of] in *; [| exact X].
  eapply R_trans; [exact X | apply IH].
Qed.

End ParserInvariantAnyState.

(** ** What the parser leaves alone *)

Lemma parser_frame_refl w : parser_frame w w.
Proof. repeat split. Qed.

Lemma parser_frame_trans w1 w2 w3 :
  parser_frame w1 w2 -> parser_frame w2 w3 -> parser_frame w1 w3.
Proof.
  unfold parser_frame.
  intros (A1 & A2 & A3 & A4 & A5 & A6 & A7) (B1 & B2 & B3 & B4 & B5 & B6 & B7).
  repeat split; congruence.
Qed.

Lemma parser_frame_compare s str w :
  parser_frame w (snd (socket_recv_compare s str w)).
Proof.
  unfold socket_recv_compare. cbn.
  destruct (rx w) as [|l ls]; [repeat split |].
  destruct (prefix str l); repeat split.
Qed.

Lemma parseRecvBuffer_frame fuel w :
  parser_frame w (world_of (parseRecvBuffer fuel w)).
Proof.
  apply parseRecvBuffer_inv; intros; try apply parser_frame_compare;
    try (repeat split; fail).
  eapply parser_frame_trans; eassumption.
Qed.

Lemma pump_frame fuel w : parser_frame w (world_of (pump fuel w)).
Proof.
  apply pump_inv; intros; try apply parser_frame_compare;
    try (repeat split; fail).
  eapply parser_frame_trans; eassumption.
Qed.

(** X1.  Whatever the state, the buffered lines and the fuel, and whether
    or not it returns, a call of [parseRecvBuffer], and so the whole pump of
    the scheduler, writes nothing to the connection and leaves the
    connection state, the log, the current temperature, the product data
    and the thresholds as they were. *)
Theorem parser_touches_only_its_own_data fuel w :
  parser_frame w (world_of (parseRecvBuffer fuel w)) /\
  parser_frame w (world_of (pump fuel w)).
Proof. split; [apply parseRecvBuffer_frame | apply pump_frame]. Qed.

Lemma consumed_refl w : consumed w w.
Proof. now exists 0%nat. Qed.

Lemma consumed_trans w1 w2 w3 : consumed w1 w2 -> consumed w2 w3 -> consumed w1 w3.
Proof.
  intros [k1 H1] [k2 H2]. exists (k2 + k1)%nat.
  now rewrite H2, H1, skipn_skipn.
Qed.

Lemma consumed_compare s str w : consumed w (snd (socket_recv_compare s str w)).
Proof.
  unfold socket_recv_compare. cbn.
  destruct (rx w) as [|l ls] eqn:Hrx.
  - exists 0%nat. cbn. now rewrite Hrx.
  - destruct (prefix str l).
    + exists 1%nat. cbn. now rewrite Hrx.
    + exists 0%nat. cbn. now rewrite Hrx.
Qed.

Lemma consumed_flush s w : consumed w (socket_flush_line s w).
Proof. exists 1%nat. rewrite flush_line_rx. now destruct (rx w). Qed.

(** X2.  The parser only takes lines off the front of the receive buffer:
    after a call of [parseRecvBuffer], or after the pump, returned or not,
    the buffer is the old one without its first [k] lines, for some [k].
    No line is added, changed or taken out of order. *)
Theorem parser_takes_lines_off_the_front fuel w :
  consumed w (world_of (parseRecvBuffer fuel w)) /\
  consumed w (world_of (pump fuel w)).
Proof.
  split.
  - apply parseRecvBuffer_inv; intros;
      first [ apply consumed_compare | apply consumed_flush
            | eapply consumed_trans; eassumption | now exists 0%nat ].
  - apply pump_inv; intros;
      first [ apply consumed_compare | apply consumed_flush
            | eapply consumed_trans; eassumption | now exists 0%nat ].
Qed.

(** ** The four states are closed under parsing *)

Lemma compare_buffer_event s str w :
  extends buffer_event w (snd (socket_recv_compare s str w)).
Proof.
  exists [Ev_socket_recv_compare s str]. split; [| repeat constructor].
  unfold socket_recv_compare. cbn.
  destruct (rx w) as [|l ls]; [reflexivity |].
  destruct (prefix str l); reflexivity.
Qed.

Lemma flush_buffer_event s w : extends buffer_event w (socket_flush_line s w).
Proof. exists [Ev_socket_flush_line s]. split; [reflexivity | repeat constructor]. Qed.

Lemma compare_protocolState s str w :
  protocolState (snd (socket_recv_compare s str w)) = protocolState w.
Proof.
  unfold socket_recv_compare. cbn.
  destruct (rx w) as [|l ls]; [reflexivity |].
  destruct (prefix str l); reflexivity.
Qed.

(** X3.  Entered with [protocolState] one of [EMPTY], [REQUEST], [HEADER],
    [END], a call of [parseRecvBuffer] and the pump leave it one of the
    four, returned or not, and the pump makes no call but compares and
    flushes on the socket: the [default] case and its diagnostic are never
    reached from a state of the FSM. *)
Theorem parser_stays_in_its_states fuel w :
  valid_state w ->
  valid_state (world_of (parseRecvBuffer fuel w)) /\
  valid_state (world_of (pump fuel w)) /\
  extends buffer_event w (world_of (pump fuel w)).
Proof.
  intros Hv.
  set (R := fun w w' : world =>
              (valid_state w -> valid_state w') /\ extends buffer_event w w').
  assert (Rrefl : forall w, R w w) by (intros; split; [tauto | apply extends_refl]).
  assert (Rtrans : forall w1 w2 w3, R w1 w2 -> R w2 w3 -> R w1 w3).
  { intros w1 w2 w3 [A1 A2] [B1 B2]. split; [tauto | eapply extends_trans; eassumption]. }
  assert (Rcmp : forall s str w, R w (snd (socket_recv_compare s str w))).
  { intros. split; [| apply compare_buffer_event].
    unfold valid_state. now rewrite compare_protocolState. }
  assert (Rflush : forall s w, R w (socket_flush_line s w)).
  { intros. split; [tauto | apply flush_buffer_event]. }
  assert (Rapi : forall v w, In v [NONE; GET; PUT; DELETE] -> R w (set_apiCall v w)).
  { intros. split; [tauto | now apply extends_same_trace]. }
  assert (Rst : forall v w, In v [EMPTY; REQUEST; HEADER; END] -> R w (set_protocolState v w)).
  { intros v w0 Hin. split; [intros _; exact Hin | now apply extends_same_trace]. }
  assert (Rvalid : forall w w', R w w' -> valid_state w -> valid_state w')
    by (intros w0 w' [A _]; exact A).
  pose proof (parseRecvBuffer_inv_valid R Rrefl Rtrans Rcmp Rflush Rapi Rst fuel w Hv) as [P _].
  pose proof (pump_inv_valid R Rrefl Rtrans Rcmp Rflush Rapi Rst Rvalid fuel w Hv) as [Q1 Q2].
  split; [exact (P Hv) |]. split; [exact (Q1 Hv) | exact Q2].
Qed.

Lemma compare_apiCall s str w :
  apiCall (snd (socket_recv_compare s str w)) = apiCall w.
Proof.
  unfold socket_recv_compare. cbn.
  destruct (rx w) as [|l ls]; [reflexivity |].
  destruct (prefix str l); reflexivity.
Qed.

(** X4.  Entered with [apiCall] one of [NONE], [GET], [PUT], [DELETE], a
    call of [parseRecvBuffer] and the pump leave it one of the four, in
    every state and returned or not: the [default] case of the dispatch
    [switch] is not reached through the parser. *)
Theorem parser_keeps_apiCall_in_range fuel w :
  valid_apiCall w ->
  valid_apiCall (world_of (parseRecvBuffer fuel w)) /\
  valid_apiCall (world_of (pump fuel w)).
Proof.
  intros Hv.
  set (R := fun w w' : world => valid_apiCall w -> valid_apiCall w').
  assert (Rrefl : forall w, R w w) by (intros w0 H; exact H).
  assert (Rtrans : forall w1 w2 w3, R w1 w2 -> R w2 w3 -> R w1 w3)
    by (intros w1 w2 w3 A B H; exact (B (A H))).
  assert (Rcmp : forall s str w, R w (snd (socket_recv_compare s str w))).
  { intros s str w0 H. unfold valid_apiCall. now rewrite compare_apiCall. }
  assert (Rflush : forall s w, R w (socket_flush_line s w)) by (intros s w0 H; exact H).
  assert (Rapi : forall v w, In v [NONE; GET; PUT; DELETE] -> R w (set_apiCall v w))
    by (intros v w0 Hin _; exact Hin).
  assert (Rst : forall v w, In v [EMPTY; REQUEST; HEADER; END] -> R w (set_protocolState v w))
    by (intros v w0 _ H; exact H).
  assert (Ruart : forall s w, R w (uart_writestr s w)) by (intros s w0 H; exact H).
  split.
  - exact (parseRecvBuffer_inv R Rrefl Rtrans Rcmp Rflush Rapi Rst Ruart fuel w Hv).
  - exact (pump_inv R Rrefl Rtrans Rcmp Rflush Rapi Rst Ruart fuel w Hv).
Qed.

Lemma flush_loop_flushes_only fuel : forall w,
  apiCall (world_of (flush_loop fuel w)) = apiCall w /\
  exists n,
    trace (world_of (flush_loop fuel w)) =
      (trace w ++ repeat (Ev_socket_flush_line SERVER_SOCKET) n)%list.
Proof.
  induction fuel as [|fuel IH]; intros w; cbn [flush_loop];
    destruct (socket_is_blank_line SERVER_SOCKET w); cbn [world_of];
    try (split; [reflexivity |]; exists 0%nat; cbn; now rewrite app_nil_r).
  destruct (IH (socket_flush_line SERVER_SOCKET w)) as (A & n & T).
  split; [exact A |]. exists (S n). rewrite T. cbn. now rewrite <- app_assoc.
Qed.

(** X5.  In [HEADER] and in [END] the lines are dropped unread: a call of
    [parseRecvBuffer], returned or not, makes no call but
    [socket_flush_line] and leaves [apiCall] as it was, whatever the lines
    begin with. *)
Theorem header_and_body_lines_not_inspected fuel w :
  protocolState w = HEADER \/ protocolState w = END ->
  apiCall (world_of (parseRecvBuffer fuel w)) = apiCall w /\
  exists n,
    trace (world_of (parseRecvBuffer fuel w)) =
      (trace w ++ repeat (Ev_socket_flush_line SERVER_SOCKET) n)%list.
Proof.
  intros Hps.
  destruct (flush_loop_flushes_only fuel w) as (A & n & T).
  assert (Hstep : forall w1,
            flush_loop fuel w = Done w1 ->
            trace (socket_flush_line SERVER_SOCKET w1) =
              (trace w ++ repeat (Ev_socket_flush_line SERVER_SOCKET) (S n))%list).
  { intros w1 E. rewrite E in T. cbn [world_of] in T. cbn. rewrite T.
    rewrite <- app_assoc. f_equal.
    change [Ev_socket_flush_line SERVER_SOCKET]
      with (repeat (Ev_socket_flush_line SERVER_SOCKET) 1).
    rewrite <- repeat_app. now replace (n + 1)%nat with (S n) by lia. }
  destruct Hps as [Hps | Hps].
  - rewrite (parse_HEADER _ _ Hps).
    destruct (flush_loop fuel w) as [w1 | w1] eqn:E; cbn [bind world_of] in *;
      [| split; [exact A | now exists n]].
    cbv zeta.
    destruct (socket_recv_available SERVER_SOCKET (socket_flush_line SERVER_SOCKET w1) >? 0);
      (split; [exact A | exists (S n); exact (Hstep w1 eq_refl)]).
  - rewrite (parse_END _ _ Hps).
    destruct (flush_loop fuel w) as [w1 | w1] eqn:E; cbn [bind world_of] in *;
      [| split; [exact A | now exists n]].
    cbv zeta. split; [exact A | exists (S n); exact (Hstep w1 eq_refl)].
Qed.

(** ** Headers, body and the lines before the request line *)

(** X6.  In [HEADER], with a blank line buffered behind header lines, the
    call drops the header lines and the blank line and keeps what lies
    behind it; it goes to [END] when a byte is available behind the blank
    line at that moment, be it a complete line or bytes of a line not yet
    complete, and to [EMPTY] when nothing is buffered. *)
Theorem header_body_decided_by_buffered_input fuel w hs rest :
  protocolState w = HEADER ->
  rx w = (hs ++ "" :: rest)%list ->
  Forall nonblank hs ->
  (List.length hs <= fuel)%nat ->
  exists w', parseRecvBuffer fuel w = Done w' /\
             rx w' = rest /\
             rx_tail w' = rx_tail w /\
             protocolState w' =
               (if socket_recv_available SERVER_SOCKET w' >? 0 then END else EMPTY) /\
             protocolState w' = state_after_headers rest (rx_tail w).
Proof.
  intros Hps Hrx Hall Hfuel.
  destruct (parse_HEADER_to_blank fuel w hs rest Hps Hrx Hall Hfuel)
    as (w' & Hdone & Hrx' & _ & _ & Hps').
  pose proof (parseRecvBuffer_frame fuel w) as (_ & _ & _ & _ & _ & _ & Ht).
  rewrite Hdone in Ht. cbn [world_of] in Ht.
  exists w'. split; [exact Hdone |]. split; [exact Hrx' |]. split; [exact Ht |].
  split; [| now rewrite <- Ht].
  rewrite recv_available_pos, Hps'. unfold socket_received_line, state_after_headers.
  rewrite Hrx'. destruct rest; cbn [orb]; [| reflexivity].
  now destruct (String.eqb (rx_tail w') "").
Qed.

(** X7.  In [END], with a blank line buffered behind body lines, the call
    drops the body lines and the blank line, keeps the lines behind it for
    the next request and goes to [EMPTY], whether or not more input is
    buffered. *)
Theorem body_dropped_up_to_blank_line fuel w bs rest :
  protocolState w = END ->
  rx w = (bs ++ "" :: rest)%list ->
  Forall nonblank bs ->
  (List.length bs <= fuel)%nat ->
  exists w', parseRecvBuffer fuel w = Done w' /\
             rx w' = rest /\
             protocolState w' = EMPTY /\
             apiCall w' = apiCall w.
Proof.
  intros Hps Hrx Hall Hfuel.
  destruct (parse_END_to_blank fuel w bs rest Hps Hrx Hall Hfuel)
    as (w' & Hdone & Hrx' & Hapi & _ & Hps').
  exists w'. repeat split; assumption.
Qed.

Lemma pump_done_no_line fuel : forall w w',
  pump fuel w = Done w' -> rx w' = [].
Proof.
  induction fuel as [|fuel IH]; intros w w' H; cbn [pump] in H;
    unfold socket_received_line in H;
    destruct (rx w) as [|l ls] eqn:Hl; try discriminate;
    try (injection H as <-; exact Hl).
  destruct (parseRecvBuffer (S fuel) w) as [w1 | w1]; cbn [bind] in H; [| discriminate].
  exact (IH w1 w' H).
Qed.

(** X8.  When the pump of the scheduler returns, no complete line is left
    in the receive buffer. *)
Theorem pump_returns_with_no_line fuel w w' :
  pump fuel w = Done w' ->
  socket_received_line SERVER_SOCKET w' = false.
Proof.
  intros H. unfold socket_received_line.
  now rewrite (pump_done_no_line fuel w w' H).
Qed.

(** From [HEADER] to the end of the request. *)
Lemma pump_headers_body fuel w hs bp :
  protocolState w = HEADER ->
  rx w = (hs ++ "" :: bp)%list ->
  Forall nonblank hs ->
  bp = [] \/ (exists bs, bp = (bs ++ [""])%list /\ Forall nonblank bs) ->
  (List.length hs + List.length bp + 2 <= fuel)%nat ->
  exists w', pump fuel w = Done w' /\
             (bp = [] -> protocolState w' = state_after_headers [] (rx_tail w')) /\
             (bp <> [] -> protocolState w' = EMPTY) /\
             apiCall w' = apiCall w /\
             rx w' = [].
Proof.
  intros Hps Hrx Hall Hbp Hfuel.
  destruct fuel as [|[|fuel]]; try lia.
  assert (Hne : exists l ls, rx w = l :: ls).
  { rewrite Hrx. destruct hs; cbn; eauto. }
  destruct Hne as (l & ls & Hne).
  rewrite (pump_cons _ _ _ _ Hne).
  destruct (parse_HEADER_to_blank (S (S fuel)) w hs bp Hps Hrx Hall)
    as (w1 & Hdone & Hrx1 & Hapi1 & _ & Hps1); [lia |].
  rewrite Hdone. cbn [bind].
  destruct Hbp as [-> | (bs & -> & Hbs)].
  - exists w1. split; [now apply pump_nil |].
    split; [intros _; exact Hps1 |]. split; [intros H; now elim H |].
    split; assumption.
  - assert (Hps1' : protocolState w1 = END).
    { rewrite Hps1. destruct bs; reflexivity. }
    assert (Hne1 : exists l1 ls1, rx w1 = l1 :: ls1).
    { rewrite Hrx1. destruct bs; cbn; eauto. }
    destruct Hne1 as (l1 & ls1 & Hne1).
    rewrite (pump_cons _ _ _ _ Hne1).
    destruct (parse_END_to_blank (S fuel) w1 bs [] Hps1' Hrx1 Hbs)
      as (w2 & Hdone2 & Hrx2 & Hapi2 & _ & Hps2).
    { rewrite length_app in Hfuel. cbn in Hfuel. lia. }
    rewrite Hdone2. cbn [bind].
    exists w2. split; [now apply pump_nil |].
    split; [intros H; destruct bs; discriminate H |].
    split; [intros _; exact Hps2 |].
    split; congruence.
Qed.

Lemma pump_junk_request fuel w junk r :
  valid_request r ->
  req_headers r <> [] \/ req_body r <> None ->
  protocolState w = EMPTY ->
  rx w = (junk ++ lines_of r)%list ->
  Forall (fun l => method_of l = NONE) junk ->
  (List.length junk + List.length (lines_of r) + 4 <= fuel)%nat ->
  exists w', pump fuel w = Done w' /\
             protocolState w' = state_after_request r (rx_tail w') /\
             apiCall w' = method_of (req_line r) /\
             rx w' = [].
Proof.
  destruct r as [m hs body]. unfold valid_request, lines_of, state_after_request.
  cbn [req_line req_headers req_body].
  intros (Hm & Hhs & Hbody) Hshape Hps Hrx Hjunk Hfuel.
  cbn [List.length] in Hfuel. rewrite !length_app in Hfuel. cbn [List.length] in Hfuel.
  destruct fuel as [|[|fuel]]; try lia.
  assert (Hne : exists l ls, rx w = l :: ls).
  { rewrite Hrx. destruct junk; cbn; eauto. }
  destruct Hne as (l & ls & Hne).
  rewrite (pump_cons _ _ _ _ Hne), (parse_EMPTY _ _ Hps).
  unfold socket_received_line. rewrite Hne. cbn [bind].
  set (w1 := set_protocolState REQUEST (set_apiCall NONE w)).
  assert (Hne1 : rx w1 = l :: ls) by exact Hne.
  assert (Hrx1 : rx w1 = (junk ++ m :: hs ++ [""] ++
                          match body with None => [] | Some bs => bs ++ [""] end)%list)
    by exact Hrx.
  rewrite (pump_cons _ _ _ _ Hne1), (parse_REQUEST _ w1 eq_refl).
  destruct (request_loop_finds junk (S fuel) w1 m _ Hrx1 Hjunk Hm ltac:(lia))
    as (w2 & Hdone & Hrx2 & Hapi2 & _).
  rewrite Hdone. cbn [bind].
  set (w3 := set_protocolState HEADER w2).
  assert (Hapi3 : apiCall w3 = method_of m) by exact Hapi2.
  destruct hs as [|h hs].
  - destruct body as [bs|]; [| destruct Hshape as [H | H]; now elim H].
    destruct (pump_headers_body fuel w3 bs [] eq_refl)
      as (w' & Hp & Hps' & _ & Hapi' & Hrx').
    + exact Hrx2.
    + exact Hbody.
    + now left.
    + rewrite length_app in Hfuel. cbn in Hfuel |- *. lia.
    + exists w'. split; [exact Hp |]. split; [exact (Hps' eq_refl) |].
      split; congruence.
  - inversion Hhs as [|? ? Hh Hhs']; subst.
    destruct (pump_headers_body fuel w3 hs
                (match body with None => [] | Some bs => bs ++ [""] end)%list eq_refl)
      as (w' & Hp & Hps' & Hps'' & Hapi' & Hrx').
    + exact Hrx2.
    + exact Hhs'.
    + destruct body as [bs|]; [right; eauto | now left].
    + cbn in Hfuel. lia.
    + exists w'. split; [exact Hp |]. split; [| split; congruence].
      destruct body as [bs|].
      * apply Hps''. destruct bs; discriminate.
      * exact (Hps' eq_refl).
Qed.

(** X9.  Lines that begin with none of the method prefixes and are buffered
    in front of a request are dropped without an error: with such lines
    [junk] followed by the lines of a valid request (other than the one
    with neither header line nor body) buffered in state [EMPTY], the pump
    returns with every line consumed and [apiCall] the method of the
    request line; the parser is back in [EMPTY], unless the last blank line
    of the request was dropped in [HEADER] with bytes of a line not yet
    complete buffered behind it, which leaves it in [END]. *)
Theorem lines_before_request_line_skipped fuel w junk r :
  valid_request r ->
  req_headers r <> [] \/ req_body r <> None ->
  protocolState w = EMPTY ->
  rx w = (junk ++ lines_of r)%list ->
  Forall (fun l => method_of l = NONE) junk ->
  (List.length junk + List.length (lines_of r) + 4 <= fuel)%nat ->
  exists w', pump fuel w = Done w' /\
             protocolState w' = state_after_request r (rx_tail w) /\
             apiCall w' = method_of (req_line r) /\
             rx w' = [].
Proof.
  intros Hv Hshape Hps Hrx Hjunk Hfuel.
  destruct (pump_junk_request fuel w junk r Hv Hshape Hps Hrx Hjunk Hfuel)
    as (w' & Hp & Hps' & Hapi' & Hrx').
  pose proof (pump_frame fuel w) as (_ & _ & _ & _ & _ & _ & Ht).
  rewrite Hp in Ht. cbn [world_of] in Ht.
  exists w'. rewrite <- Ht. repeat split; assumption.
Qed.

(** * Further properties of the dispatcher and of the scheduler *)

Section SchedulerProperties.

Variable fmt : formats.

(** ** The dispatcher *)

Lemma wrote_uart s w : wrote "" w (uart_writestr s w).
Proof.
  unfold wrote. cbn. rewrite str_app_nil_r. repeat split.
  exists [Ev_uart_writestr s]. split; [reflexivity | repeat constructor].
Qed.

Lemma dispatch_wrote_some fuel w :
  exists t, wrote t w (world_of (dispatch fmt fuel w)).
Proof.
  unfold dispatch.
  destruct (apiCall w =? NONE); [exists ""; apply wrote_nil |].
  destruct (apiCall w =? GET).
  { destruct (getCall_wrote_some fmt fuel w) as (t & H). eexists. exact H. }
  destruct (apiCall w =? PUT); [exists ""; apply wrote_uart |].
  destruct (apiCall w =? DELETE); [exists ""; apply wrote_uart |].
  exists "". apply wrote_nil.
Qed.

(** X10.  Only [GET] is answered on the connection: for every other value
    of [apiCall] the dispatch [switch] returns with no byte written; [PUT]
    and [DELETE] leave one line on the uart, [NONE] and values out of range
    leave nothing at all. *)
Theorem dispatch_writes_only_for_GET fuel w :
  apiCall w <> GET ->
  exists w', dispatch fmt fuel w = Done w' /\
             tx w' = tx w /\
             trace w' =
               (trace w ++
                if apiCall w =? PUT then [Ev_uart_writestr ("PUT command ..." ++ CRLF)]
                else if apiCall w =? DELETE then [Ev_uart_writestr ("DELETE command ..." ++ CRLF)]
                else [])%list.
Proof.
  intros Hg. apply Z.eqb_neq in Hg. unfold dispatch. rewrite Hg.
  destruct (apiCall w =? NONE) eqn:E0.
  { apply Z.eqb_eq in E0. rewrite E0. cbn. exists w.
    repeat split. now rewrite app_nil_r. }
  destruct (apiCall w =? PUT); [eexists; repeat split |].
  destruct (apiCall w =? DELETE); [eexists; repeat split |].
  exists w. repeat split. now rewrite app_nil_r.
Qed.

(** X11.  [getCall] only reads: whatever the fuel, and whether or not its
    loop returns, it leaves the log, the thresholds, the product data, the
    current temperature, the parser state, the receive buffer and the state
    of the connection as they were, and makes no call but writes to the
    socket. *)
Theorem getCall_only_writes_to_the_connection fuel w :
  let w' := world_of (getCall fmt fuel w) in
  log w' = log w /\ config w' = config w /\ vpd w' = vpd w /\
  current_temperature w' = current_temperature w /\
  protocolState w' = protocolState w /\ apiCall w' = apiCall w /\
  rx w' = rx w /\ conn w' = conn w /\
  exists evs, trace w' = (trace w ++ evs)%list /\
              Forall (fun e => exists b, e = Ev_socket_write SERVER_SOCKET b) evs.
Proof.
  cbv zeta.
  destruct (getCall_wrote_some fmt fuel w) as (t & _ & A1 & A2 & A3 & A4 & A5 & A6 & A7 & A8 & _).
  repeat (split; [assumption |]).
  (* the calls are socket writes *)
  assert (Hstep : forall f : world -> world,
            (forall w0, exists b, trace (f w0) = (trace w0 ++ [Ev_socket_write SERVER_SOCKET b])%list) ->
            forall fs,
            (forall w0, exists evs, trace (steps fs w0) = (trace w0 ++ evs)%list /\
                        Forall (fun e => exists b, e = Ev_socket_write SERVER_SOCKET b) evs) ->
            forall w0, exists evs, trace (steps (f :: fs) w0) = (trace w0 ++ evs)%list /\
                        Forall (fun e => exists b, e = Ev_socket_write SERVER_SOCKET b) evs).
  { intros f Hf fs Hfs w0. change (steps (f :: fs) w0) with (steps fs (f w0)).
    destruct (Hf w0) as (b & Hb). destruct (Hfs (f w0)) as (evs & He & Fe).
    exists (Ev_socket_write SERVER_SOCKET b :: evs). split.
    - rewrite He, Hb, <- app_assoc. reflexivity.
    - constructor; [now exists b | exact Fe]. }
  assert (Hnil : forall w0, exists evs, trace (steps [] w0) = (trace w0 ++ evs)%list /\
                            Forall (fun e => exists b, e = Ev_socket_write SERVER_SOCKET b) evs).
  { intros w0. exists []. split; [now rewrite app_nil_r | constructor]. }
  assert (Hhead : exists evs, trace (getCall_head fmt w) = (trace w ++ evs)%list /\
                    Forall (fun e => exists b, e = Ev_socket_write SERVER_SOCKET b) evs).
  { unfold getCall_head, _writeColon, _writeComma, _writeCloseBracket.
    repeat (apply Hstep; [intros; eexists; reflexivity |]). apply Hnil. }
  assert (Hloop : forall fuel0 i w0,
            exists evs, trace (world_of (log_loop fmt fuel0 i w0)) = (trace w0 ++ evs)%list /\
              Forall (fun e => exists b, e = Ev_socket_write SERVER_SOCKET b) evs).
  { induction fuel0 as [|fuel0 IH]; intros i w0; cbn [log_loop];
      destruct (i <? log_get_num_entries w0); try apply (Hnil w0).
    destruct (log_get_record i w0) as [time eventnum].
    set (w1 := steps _ w0).
    assert (H1 : exists evs, trace w1 = (trace w0 ++ evs)%list /\
                   Forall (fun e => exists b, e = Ev_socket_write SERVER_SOCKET b) evs).
    { unfold w1, _writeColon, _writeComma.
      repeat (apply Hstep; [intros; eexists; reflexivity |]). apply Hnil. }
    destruct H1 as (e1 & T1 & F1).
    set (w2 := if i <? log_get_num_entries w1 - 1 then _writeComma w1 else w1).
    assert (H2 : exists evs, trace w2 = (trace w1 ++ evs)%list /\
                   Forall (fun e => exists b, e = Ev_socket_write SERVER_SOCKET b) evs).
    { unfold w2. destruct (i <? log_get_num_entries w1 - 1); [| apply (Hnil w1)].
      eexists. split; [reflexivity |]. repeat constructor. eexists. reflexivity. }
    destruct H2 as (e2 & T2 & F2).
    destruct (IH (int_incr i) w2) as (e3 & T3 & F3).
    exists (e1 ++ e2 ++ e3)%list. split.
    - rewrite T3, T2, T1, <- !app_assoc. reflexivity.
    - repeat (apply Forall_app; split); assumption. }
  unfold getCall.
  destruct Hhead as (e1 & T1 & F1).
  destruct (Hloop fuel 0 (getCall_head fmt w)) as (e2 & T2 & F2).
  destruct (log_loop fmt fuel 0 (getCall_head fmt w)) as [w2 | w2]; cbn [bind world_of] in *.
  - set (w3 := steps _ w2).
    assert (H3 : exists evs, trace w3 = (trace w2 ++ evs)%list /\
                   Forall (fun e => exists b, e = Ev_socket_write SERVER_SOCKET b) evs).
    { unfold w3, _writeCloseBracket.
      repeat (apply Hstep; [intros; eexists; reflexivity |]). apply Hnil. }
    destruct H3 as (e3 & T3 & F3).
    exists (e1 ++ e2 ++ e3)%list. split.
    + rewrite T3, T2, T1, <- !app_assoc. reflexivity.
    + repeat (apply Forall_app; split); assumption.
  - exists (e1 ++ e2)%list. split.
    + rewrite T2, T1, <- !app_assoc. reflexivity.
    + apply Forall_app; split; assumption.
Qed.

(** X12.  With an empty log [getCall] returns without a pass through its
    loop, whatever the fuel, and the log array it writes is the empty
    array: the response ends with the opening bracket followed at once by
    the closing bracket, the closing brace and the line terminator. *)
Theorem getCall_empty_log fuel w :
  log w = [] ->
  exists w',
    getCall fmt fuel w = Done w' /\
    tx w' = tx w ++ "HTTP/1.1 200 OK" ++ "Content-Type: application/vnd.api+json" ++
            "Connection: close" ++ CRLF ++ CRLF ++
            json_head fmt w ++ "]}" ++ CRLF.
Proof.
  intros Hlog.
  destruct (getCall_wrote fmt fuel w) as (w' & Hdone & Ht & _).
  - unfold log_get_num_entries, INT_MAX. rewrite Hlog. cbn. lia.
  - rewrite Hlog. cbn. lia.
  - exists w'. split; [exact Hdone |]. rewrite Ht.
    unfold log_array_text, log_get_num_entries. rewrite Hlog. reflexivity.
Qed.

(** ** One pass through [while (1)] *)

(** The pass up to the test for buffered input, call by call. *)
Lemma main_loop_body_steps inp fuel w :
  exists w3,
    main_loop_body fmt inp fuel w =
      (if socket_received_line SERVER_SOCKET w3 then
         pump fuel w3 >>= fun w =>
         dispatch fmt fuel w >>= fun w =>
         Done (socket_disconnect SERVER_SOCKET w)
       else Done (config_update (log_update w3))) /\
    trace w3 = (trace w ++ Ev_wdt_reset :: Ev_led_update ::
                sampling_calls inp w ++ lifecycle_calls w)%list /\
    protocolState w3 = protocolState w /\ apiCall w3 = apiCall w /\
    rx w3 = rx w /\ tx w3 = tx w /\
    conn w3 = after_lifecycle (conn w) /\
    current_temperature w3 = current_temperature (after_sampling inp w) /\
    log w3 = log (after_sampling inp w) /\
    vpd w3 = vpd w /\ config w3 = config w /\
    rx_tail w3 = rx_tail w.
Proof.
  destruct w as [ps ac ct rxw rxt txw c lg v cf tr].
  destruct inp as [d t recs].
  unfold main_loop_body, delay_isdone, after_sampling, sampling_calls, lifecycle_calls.
  cbn [delay_1_done].
  destruct d; destruct c; cbn -[pump dispatch socket_received_line];
    eexists; (split; [reflexivity |]);
    cbn; rewrite <- ?app_assoc; cbn; repeat split.
Qed.

(** From the test for buffered input on, the sampled data stay put. *)
Lemma main_loop_body_rest_frame fuel w3 :
  let w' :=
    world_of
      (if socket_received_line SERVER_SOCKET w3 then
         pump fuel w3 >>= fun w =>
         dispatch fmt fuel w >>= fun w =>
         Done (socket_disconnect SERVER_SOCKET w)
       else Done (config_update (log_update w3))) in
  current_temperature w' = current_temperature w3 /\ log w' = log w3 /\
  vpd w' = vpd w3 /\ config w' = config w3.
Proof.
  cbv zeta.
  destruct (socket_received_line SERVER_SOCKET w3); [| repeat split].
  pose proof (pump_frame fuel w3) as (_ & _ & P3 & P4 & P5 & P6 & _).
  destruct (pump fuel w3) as [w4 | w4]; cbn [bind world_of] in *;
    [| repeat split; assumption].
  destruct (dispatch_wrote_some fuel w4)
    as (t & _ & _ & _ & D3 & _ & _ & D6 & D7 & D8 & _).
  destruct (dispatch fmt fuel w4) as [w5 | w5]; cbn [bind world_of] in *;
    cbn; repeat split; congruence.
Qed.

(** X13.  A pass with no complete line buffered returns, whatever the
    fuel: after the watchdog reset, the LED update, the sampling step and
    the lifecycle step it calls [log_update] and [config_update] and
    nothing else; the parser is not called, [protocolState], [apiCall], the
    receive buffer and the bytes written stay as they were, and a closed
    connection has been opened in listen mode. *)
Theorem idle_pass inp fuel w :
  socket_received_line SERVER_SOCKET w = false ->
  exists w',
    main_loop_body fmt inp fuel w = Done w' /\
    trace w' = (trace w ++ Ev_wdt_reset :: Ev_led_update ::
                sampling_calls inp w ++ lifecycle_calls w ++
                [Ev_log_update; Ev_config_update])%list /\
    protocolState w' = protocolState w /\ apiCall w' = apiCall w /\
    rx w' = rx w /\ tx w' = tx w /\
    conn w' = after_lifecycle (conn w).
Proof.
  intros Hline.
  destruct (main_loop_body_steps inp fuel w)
    as (w3 & Heq & Ht & Hps & Hapi & Hrx & Htx & Hconn & _).
  assert (Hline3 : socket_received_line SERVER_SOCKET w3 = false).
  { unfold socket_received_line in *. now rewrite Hrx. }
  rewrite Heq, Hline3. eexists. split; [reflexivity |].
  cbn. rewrite Ht. repeat split; try assumption.
  rewrite <- !app_assoc. cbn. rewrite <- !app_assoc. reflexivity.
Qed.

(** X14.  A pass with a complete line buffered, returned or not, makes
    after the lifecycle step no call but those of the parser, those of the
    dispatcher and [socket_disconnect]: [log_update] and [config_update]
    are not called in a pass that handles input. *)
Theorem request_pass_skips_write_backs inp fuel w :
  socket_received_line SERVER_SOCKET w = true ->
  exists rest,
    trace (world_of (main_loop_body fmt inp fuel w)) =
      (trace w ++ Ev_wdt_reset :: Ev_led_update ::
       sampling_calls inp w ++ lifecycle_calls w ++ rest)%list /\
    Forall (fun e => request_event e \/ e = Ev_socket_disconnect SERVER_SOCKET) rest /\
    ~ In Ev_log_update rest /\ ~ In Ev_config_update rest.
Proof.
  intros Hline.
  destruct (main_loop_body_steps inp fuel w) as (w3 & Heq & Ht & _ & _ & Hrx & _).
  assert (Hline3 : socket_received_line SERVER_SOCKET w3 = true).
  { unfold socket_received_line in *. now rewrite Hrx. }
  rewrite Heq, Hline3.
  set (Q := fun e => request_event e \/ e = Ev_socket_disconnect SERVER_SOCKET).
  assert (H : extends Q
                w3 (world_of (pump fuel w3 >>= fun w =>
                              dispatch fmt fuel w >>= fun w =>
                              Done (socket_disconnect SERVER_SOCKET w)))).
  { pose proof (pump_extends fuel w3) as X.
    apply (extends_weaken _ Q) in X; [| intros e He; left; left; exact He].
    destruct (pump fuel w3) as [w4 | w4]; cbn [bind world_of] in *; [| exact X].
    pose proof (dispatch_extends fmt fuel w4) as Y.
    apply (extends_weaken _ Q) in Y; [| intros e He; left; right; exact He].
    destruct (dispatch fmt fuel w4) as [w5 | w5]; cbn [bind world_of] in *.
    - eapply extends_trans; [exact X |]. eapply extends_trans; [exact Y |].
      exists [Ev_socket_disconnect SERVER_SOCKET].
      split; [reflexivity | constructor; [now right | constructor]].
    - eapply extends_trans; [exact X | exact Y]. }
  destruct H as (rest & Hr & Fr). exists rest.
  split; [rewrite Hr, Ht, <- !app_assoc; cbn; now rewrite <- !app_assoc |].
  split; [exact Fr |].
  rewrite Forall_forall in Fr.
  split; intros Hin; destruct (Fr _ Hin) as [[H | H] | H];
    try discriminate; exact H.
Qed.

(** X15.  What a pass does to the sampled data is decided by timer 1 alone,
    whatever else happens in the pass and whether or not it returns: with
    the timer done the current temperature is the sensor value and the log
    has grown by the records of the evaluator; otherwise both are as they
    were.  The thresholds and the product data are never changed. *)
Theorem pass_samples_on_timer_only inp fuel w :
  let w' := world_of (main_loop_body fmt inp fuel w) in
  current_temperature w' =
    (if delay_1_done inp then sensor_value inp else current_temperature w) /\
  log w' = (if delay_1_done inp then log w ++ tempfsm_records inp else log w)%list /\
  config w' = config w /\ vpd w' = vpd w.
Proof.
  cbv zeta.
  destruct (main_loop_body_steps inp fuel w)
    as (w3 & Heq & _ & _ & _ & _ & _ & _ & Hct & Hlog & Hvpd & Hcfg & _).
  destruct (main_loop_body_rest_frame fuel w3) as (F1 & F2 & F3 & F4).
  rewrite Heq, F1, F2, F3, F4, Hct, Hlog, Hvpd, Hcfg.
  unfold after_sampling. destruct (delay_1_done inp); repeat split.
Qed.

(** X16.  The timer is re-armed for one second and the sensor restarted in
    exactly the passes in which timer 1 was done: the calls of the pass
    hold [delay_set(1, 1000)] followed by [temp_start()] when it was, and
    no [delay_set], [temp_get] or [temp_start] when it was not. *)
Theorem timer_rearmed_when_done inp fuel w :
  exists evs,
    trace (world_of (main_loop_body fmt inp fuel w)) = (trace w ++ evs)%list /\
    if delay_1_done inp then
      exists pre post, evs = (pre ++ Ev_delay_set 1 1000 :: Ev_temp_start :: post)%list
    else
      Forall (fun e => match e with
                       | Ev_delay_set _ _ | Ev_temp_get | Ev_temp_start
                       | Ev_tempfsm_update _ _ _ _ _ => False
                       | _ => True
                       end) evs.
Proof.
  destruct (main_loop_body_steps inp fuel w) as (w3 & Heq & Ht & _).
  destruct (main_loop_body_epilogue_extends fmt
              (fun e => request_event e \/ e = Ev_socket_disconnect SERVER_SOCKET \/
                        e = Ev_log_update \/ e = Ev_config_update) fuel w3)
    as (rest & Hr & Fr); try tauto.
  rewrite Heq, Hr, Ht. rewrite <- app_assoc. eexists. split; [reflexivity |].
  unfold sampling_calls. destruct (delay_1_done inp).
  - exists [Ev_wdt_reset; Ev_led_update; Ev_temp_get; Ev_uart_writedec32 (sensor_value inp);
            Ev_uart_writestr (conn_text (conn w));
            Ev_tempfsm_update (sensor_value inp) (hi_alarm (config w)) (hi_warn (config w))
              (lo_alarm (config w)) (lo_warn (config w))].
    eexists. cbn. reflexivity.
  - cbn. constructor; [exact I |]. constructor; [exact I |].
    apply Forall_app. split.
    + unfold lifecycle_calls. destruct (conn w); repeat constructor.
    + eapply Forall_impl; [| exact Fr].
      intros e [[He | He] | [He | [He | He]]]; try (subst e; exact I);
        destruct e; try exact I; destruct He.
Qed.

(** ** A request from arrival to disconnect *)

(** A pass with input that returns: what it leaves behind. *)
Lemma request_pass_result inp fuel w w' :
  socket_received_line SERVER_SOCKET w = true ->
  main_loop_body fmt inp fuel w = Done w' ->
  rx w' = [] /\ conn w' = Closed.
Proof.
  intros Hline Hdone.
  destruct (main_loop_body_steps inp fuel w) as (w3 & Heq & _ & _ & _ & Hrx & _).
  assert (Hline3 : socket_received_line SERVER_SOCKET w3 = true).
  { unfold socket_received_line in *. now rewrite Hrx. }
  rewrite Heq, Hline3 in Hdone.
  destruct (pump fuel w3) as [w4 | w4] eqn:Hp; cbn [bind] in Hdone; [| discriminate].
  pose proof (pump_done_no_line fuel w3 w4 Hp) as Hrx4.
  destruct (dispatch_wrote_some fuel w4) as (t & _ & _ & _ & _ & D4 & _).
  destruct (dispatch fmt fuel w4) as [w5 | w5]; cbn [bind world_of] in *; [| discriminate].
  injection Hdone as <-. cbn. split; [congruence | reflexivity].
Qed.

(** X17.  After a pass that handled input and returned, the connection is
    closed and no line is buffered, and the next pass, whatever its inputs
    and fuel, returns having reopened the socket on [HTTP_PORT] in listen
    mode before the write-backs: no second request is parsed on the closed
    connection. *)
Theorem socket_reopened_after_request inp1 fuel1 inp2 fuel2 w w1 :
  socket_received_line SERVER_SOCKET w = true ->
  main_loop_body fmt inp1 fuel1 w = Done w1 ->
  exists w2,
    main_loop_body fmt inp2 fuel2 w1 = Done w2 /\
    conn w2 = Listening /\
    trace w2 = (trace w1 ++ Ev_wdt_reset :: Ev_led_update :: sampling_calls inp2 w1 ++
                [Ev_socket_open SERVER_SOCKET HTTP_PORT; Ev_socket_listen SERVER_SOCKET;
                 Ev_log_update; Ev_config_update])%list /\
    protocolState w2 = protocolState w1 /\ apiCall w2 = apiCall w1.
Proof.
  intros Hline Hdone.
  destruct (request_pass_result inp1 fuel1 w w1 Hline Hdone) as (Hrx1 & Hconn1).
  destruct (idle_pass inp2 fuel2 w1) as (w2 & H2 & Ht & Hps & Hapi & _ & _ & Hconn).
  { unfold socket_received_line. now rewrite Hrx1. }
  exists w2. split; [exact H2 |].
  split; [now rewrite Hconn, Hconn1 |].
  split; [| split; assumption].
  rewrite Ht. unfold lifecycle_calls. rewrite Hconn1. reflexivity.
Qed.

Lemma json_head_ext w a :
  vpd w = vpd a -> config w = config a ->
  current_temperature w = current_temperature a ->
  json_head fmt w = json_head fmt a.
Proof. intros H1 H2 H3. unfold json_head. now rewrite H1, H2, H3. Qed.

Lemma log_array_text_ext w a :
  log w = log a -> log_array_text fmt w = log_array_text fmt a.
Proof.
  intros H. unfold log_array_text, log_get_num_entries, log_get_record. now rewrite H.
Qed.

(** The pass up to the dispatch, for a fully buffered request. *)
Lemma request_pass_parsed inp fuel w r :
  valid_request r ->
  req_headers r <> [] \/ req_body r <> None ->
  protocolState w = EMPTY ->
  rx w = lines_of r ->
  (List.length (lines_of r) + 4 <= fuel)%nat ->
  exists w4,
    main_loop_body fmt inp fuel w =
      (dispatch fmt fuel w4 >>= fun w => Done (socket_disconnect SERVER_SOCKET w)) /\
    protocolState w4 = state_after_request r (rx_tail w) /\
    apiCall w4 = method_of (req_line r) /\ rx w4 = [] /\
    tx w4 = tx w /\
    current_temperature w4 = current_temperature (after_sampling inp w) /\
    log w4 = log (after_sampling inp w) /\
    vpd w4 = vpd w /\ config w4 = config w.
Proof.
  intros Hv Hshape Hps Hrx Hfuel.
  destruct (main_loop_body_steps inp fuel w)
    as (w3 & Heq & _ & Hps3 & _ & Hrx3 & Htx3 & _ & Hct3 & Hlog3 & Hvpd3 & Hcfg3 & Ht3).
  assert (Hline3 : socket_received_line SERVER_SOCKET w3 = true).
  { unfold socket_received_line. rewrite Hrx3, Hrx. reflexivity. }
  rewrite Heq, Hline3.
  destruct (pump_request fuel w3 r Hv Hshape) as (w4 & Hp & Hps4 & Hapi4 & Hrx4);
    try congruence.
  pose proof (pump_frame fuel w3) as (P1 & _ & P3 & P4 & P5 & P6 & P7).
  rewrite Hp in *. cbn [bind world_of] in *.
  exists w4. split; [reflexivity |].
  rewrite P7, Ht3 in Hps4.
  repeat split; congruence.
Qed.

(** X18.  A valid [GET] request (other than the one with neither header
    line nor body) fully buffered in state [EMPTY], with the log within
    [INT_MAX] records after the sampling step: the pass returns with every
    line consumed and the connection closed, and the bytes written are the
    response built from the thresholds and product data and from the
    temperature and the log as the sampling step of this very pass left
    them.  The parser is back in [EMPTY], unless the last blank line of the
    request was dropped in [HEADER] with bytes of a line not yet complete
    buffered behind it, which leaves it in [END]. *)
Theorem GET_request_answered_and_closed inp fuel w r :
  valid_request r ->
  req_headers r <> [] \/ req_body r <> None ->
  method_of (req_line r) = GET ->
  protocolState w = EMPTY ->
  rx w = lines_of r ->
  log_get_num_entries (after_sampling inp w) <= INT_MAX ->
  (List.length (lines_of r) + 4 <= fuel)%nat ->
  (List.length (log (after_sampling inp w)) <= fuel)%nat ->
  exists w',
    main_loop_body fmt inp fuel w = Done w' /\
    tx w' = tx w ++ "HTTP/1.1 200 OK" ++ "Content-Type: application/vnd.api+json" ++
            "Connection: close" ++ CRLF ++ CRLF ++
            json_head fmt (after_sampling inp w) ++
            log_array_text fmt (after_sampling inp w) ++ "]}" ++ CRLF /\
    protocolState w' = state_after_request r (rx_tail w) /\
    rx w' = [] /\ conn w' = Closed.
Proof.
  intros Hv Hshape Hget Hps Hrx Hmax Hfuel Hfuel2.
  destruct (request_pass_parsed inp fuel w r Hv Hshape Hps Hrx Hfuel)
    as (w4 & Heq & Hps4 & Hapi4 & Hrx4 & Htx4 & Hct4 & Hlog4 & Hvpd4 & Hcfg4).
  assert (Hvpd : vpd (after_sampling inp w) = vpd w)
    by (unfold after_sampling; now destruct (delay_1_done inp)).
  assert (Hcfg : config (after_sampling inp w) = config w)
    by (unfold after_sampling; now destruct (delay_1_done inp)).
  destruct (getCall_wrote fmt fuel w4) as (w5 & Hg & Ht5 & Hps5 & _ & _ & Hrx5 & _).
  { unfold log_get_num_entries in *. now rewrite Hlog4. }
  { now rewrite Hlog4. }
  rewrite Heq. unfold dispatch. rewrite Hapi4, Hget. cbn [Z.eqb GET NONE Pos.eqb].
  rewrite Hg. cbn [bind].
  eexists. split; [reflexivity |].
  cbn. rewrite Ht5, Htx4.
  rewrite (json_head_ext w4 (after_sampling inp w)) by congruence.
  rewrite (log_array_text_ext w4 (after_sampling inp w) Hlog4).
  repeat split; congruence.
Qed.

(** X19.  A valid [PUT] or [DELETE] request (other than the one with
    neither header line nor body) fully buffered in state [EMPTY]: the pass
    returns with every line consumed and the connection closed, and not
    one byte has been written to the connection: the client gets no
    response.  The parser is back in [EMPTY], unless the last blank line of
    the request was dropped in [HEADER] with bytes of a line not yet
    complete buffered behind it, which leaves it in [END]. *)
Theorem PUT_DELETE_request_closed_unanswered inp fuel w r :
  valid_request r ->
  req_headers r <> [] \/ req_body r <> None ->
  method_of (req_line r) <> GET ->
  protocolState w = EMPTY ->
  rx w = lines_of r ->
  (List.length (lines_of r) + 4 <= fuel)%nat ->
  exists w',
    main_loop_body fmt inp fuel w = Done w' /\
    tx w' = tx w /\
    protocolState w' = state_after_request r (rx_tail w) /\
    rx w' = [] /\ conn w' = Closed.
Proof.
  intros Hv Hshape Hget Hps Hrx Hfuel.
  destruct (request_pass_parsed inp fuel w r Hv Hshape Hps Hrx Hfuel)
    as (w4 & Heq & Hps4 & Hapi4 & Hrx4 & Htx4 & _).
  rewrite Heq.
  assert (Hd : exists w5, dispatch fmt fuel w4 = Done w5 /\ tx w5 = tx w4 /\
                          protocolState w5 = protocolState w4 /\ rx w5 = rx w4).
  { unfold dispatch.
    destruct (apiCall w4 =? NONE); [exists w4; repeat split |].
    destruct (apiCall w4 =? GET) eqn:E; [apply Z.eqb_eq in E; congruence |].
    destruct (apiCall w4 =? PUT); [eexists; repeat split |].
    destruct (apiCall w4 =? DELETE); [eexists; repeat split |].
    exists w4. repeat split. }
  destruct Hd as (w5 & Hd & Htx5 & Hps5 & Hrx5).
  rewrite Hd. cbn [bind]. eexists. split; [reflexivity |].
  cbn. repeat split; congruence.
Qed.

(** ** The run of [while (1)] *)

Lemma main_loop_body_resets_once inp fuel w :
  exists rest,
    trace (world_of (main_loop_body fmt inp fuel w)) =
      (trace w ++ Ev_wdt_reset :: Ev_led_update :: rest)%list /\
    filter is_wdt_reset rest = [].
Proof.
  destruct (main_loop_body_prologue fmt inp fuel w) as (w3 & evs & Heq & Ht & Hevs & _).
  destruct (main_loop_body_epilogue_extends fmt (fun e => is_wdt_reset e = false) fuel w3)
    as (evs' & Ht' & Hevs'); try reflexivity.
  { intros e [He | He]; destruct e; try reflexivity; destruct He. }
  exists (evs ++ evs')%list. split.
  - rewrite Heq, Ht', Ht, <- app_assoc. reflexivity.
  - rewrite filter_app.
    assert (F1 : filter is_wdt_reset evs = []).
    { clear - Hevs. induction Hevs as [|e l He _ IH]; [reflexivity |].
      cbn. destruct e; try (destruct He); exact IH. }
    assert (F2 : filter is_wdt_reset evs' = []).
    { clear - Hevs'. induction Hevs' as [|e l He _ IH]; [reflexivity |].
      cbn. now rewrite He. }
    now rewrite F1, F2.
Qed.

(** X20.  Over a run of the loop that gets through its passes, the watchdog
    is reset once per pass, neither more nor less, whatever arrives and
    whatever the passes do. *)
Theorem watchdog_reset_once_per_pass fuel : forall ticks w w',
  main_loop fmt fuel ticks w = Done w' ->
  watchdog_resets w' = (watchdog_resets w + List.length ticks)%nat.
Proof.
  induction ticks as [|t ts IH]; intros w w' H; cbn [main_loop] in H.
  - injection H as <-. cbn. lia.
  - destruct (main_loop_body_resets_once (tick_inputs t) fuel (arrive (tick_lines t) w))
      as (rest & Ht & Hf).
    destruct (main_loop_body fmt (tick_inputs t) fuel (arrive (tick_lines t) w))
      as [w1 | w1]; cbn [bind world_of] in *; [| discriminate].
    rewrite (IH w1 w' H). unfold watchdog_resets. rewrite Ht.
    replace (trace (arrive (tick_lines t) w)) with (trace w)
      by (unfold arrive; now destruct (tick_lines t)).
    rewrite filter_app, length_app. cbn. rewrite Hf. cbn. lia.
Qed.

End SchedulerProperties.

(** * The further properties at concrete inputs *)

(** X3 in state [HEADER]. *)
Lemma parser_stays_in_its_states_witness :
  valid_state (world_of (parseRecvBuffer 3 (in_state HEADER ["Host: x"; ""]))) /\
  valid_state (world_of (pump 3 (in_state HEADER ["Host: x"; ""]))) /\
  extends buffer_event (in_state HEADER ["Host: x"; ""])
          (world_of (pump 3 (in_state HEADER ["Host: x"; ""]))).
Proof.
  apply (parser_stays_in_its_states 3 (in_state HEADER ["Host: x"; ""])).
  unfold valid_state. simpl. auto 10.
Defined.

(** X4 on a PUT request line. *)
Lemma parser_keeps_apiCall_in_range_witness :
  valid_apiCall (world_of (parseRecvBuffer 2 (in_state REQUEST ["PUT /vpd HTTP/1.1"; "Host: x"]))) /\
  valid_apiCall (world_of (pump 2 (in_state REQUEST ["PUT /vpd HTTP/1.1"; "Host: x"]))).
Proof.
  apply (parser_keeps_apiCall_in_range 2 (in_state REQUEST ["PUT /vpd HTTP/1.1"; "Host: x"])).
  unfold valid_apiCall. simpl. auto 10.
Defined.

(** X5 on a header line that begins with a method prefix. *)
Lemma header_and_body_lines_not_inspected_witness :
  apiCall (world_of (parseRecvBuffer 2 (in_state HEADER ["GET /other HTTP/1.1"; ""]))) = NONE /\
  exists n,
    trace (world_of (parseRecvBuffer 2 (in_state HEADER ["GET /other HTTP/1.1"; ""]))) =
      ([] ++ repeat (Ev_socket_flush_line SERVER_SOCKET) n)%list.
Proof.
  apply (header_and_body_lines_not_inspected 2 (in_state HEADER ["GET /other HTTP/1.1"; ""])).
  left. reflexivity.
Defined.

(** X6 with bytes of a line not yet complete behind the blank line. *)
Lemma header_body_decided_by_buffered_input_witness :
  exists w',
    parseRecvBuffer 1 (arrive_bytes "t=" (in_state HEADER ["Host: x"; ""])) = Done w' /\
    rx w' = [] /\
    rx_tail w' = "t=" /\
    protocolState w' =
      (if socket_recv_available SERVER_SOCKET w' >? 0 then END else EMPTY) /\
    protocolState w' = END.
Proof.
  apply (header_body_decided_by_buffered_input 1
           (arrive_bytes "t=" (in_state HEADER ["Host: x"; ""])) ["Host: x"] []).
  - reflexivity.
  - reflexivity.
  - repeat constructor. discriminate.
  - simpl. lia.
Defined.

(** X7 with the next request line buffered behind the body. *)
Lemma body_dropped_up_to_blank_line_witness :
  exists w', parseRecvBuffer 1 (in_state END ["t=1"; ""; "GET /vpd HTTP/1.1"]) = Done w' /\
             rx w' = ["GET /vpd HTTP/1.1"] /\
             protocolState w' = EMPTY /\
             apiCall w' = NONE.
Proof.
  apply (body_dropped_up_to_blank_line 1 (in_state END ["t=1"; ""; "GET /vpd HTTP/1.1"])
           ["t=1"] ["GET /vpd HTTP/1.1"]).
  - reflexivity.
  - reflexivity.
  - repeat constructor. discriminate.
  - simpl. lia.
Defined.

(** X8 on a GET request. *)
Lemma pump_returns_with_no_line_witness :
  socket_received_line SERVER_SOCKET
    (world_of (pump 5 (in_state EMPTY ["GET /vpd HTTP/1.1"; "Host: x"; ""]))) = false.
Proof.
  apply (pump_returns_with_no_line 5 (in_state EMPTY ["GET /vpd HTTP/1.1"; "Host: x"; ""])
           (world_of (pump 5 (in_state EMPTY ["GET /vpd HTTP/1.1"; "Host: x"; ""])))).
  vm_compute. reflexivity.
Defined.

(** X9 with two lines in front of a DELETE request. *)
Lemma lines_before_request_line_skipped_witness :
  exists w',
    pump 9 (in_state EMPTY ["junk"; ""; "DELETE /log HTTP/1.1"; "Host: x"; ""]) = Done w' /\
    protocolState w' = EMPTY /\
    apiCall w' = DELETE /\
    rx w' = [].
Proof.
  apply (lines_before_request_line_skipped 9
           (in_state EMPTY ["junk"; ""; "DELETE /log HTTP/1.1"; "Host: x"; ""])
           ["junk"; ""] (mkRequest "DELETE /log HTTP/1.1" ["Host: x"] None)).
  - split; [vm_compute; discriminate |]. split; repeat constructor. discriminate.
  - left. discriminate.
  - reflexivity.
  - reflexivity.
  - repeat constructor.
  - simpl. lia.
Defined.

(** X10 with [apiCall = PUT]. *)
Lemma dispatch_writes_only_for_GET_witness :
  exists w', dispatch plain_formats 0 (set_apiCall PUT boot_world) = Done w' /\
             tx w' = "" /\
             trace w' = [Ev_uart_writestr ("PUT command ..." ++ CRLF)].
Proof.
  apply (dispatch_writes_only_for_GET plain_formats 0 (set_apiCall PUT boot_world)).
  vm_compute. discriminate.
Defined.

(** X12 on the boot state, with no fuel. *)
Lemma getCall_empty_log_witness :
  exists w',
    getCall plain_formats 0 boot_world = Done w' /\
    tx w' = "" ++ "HTTP/1.1 200 OK" ++ "Content-Type: application/vnd.api+json" ++
            "Connection: close" ++ CRLF ++ CRLF ++
            json_head plain_formats boot_world ++ "]}" ++ CRLF.
Proof.
  apply (getCall_empty_log plain_formats 0 boot_world). reflexivity.
Defined.

(** X13 on the boot state, timer 1 done. *)
Lemma idle_pass_witness :
  exists w',
    main_loop_body plain_formats sampled_inputs 0 boot_world = Done w' /\
    trace w' = ([] ++ Ev_wdt_reset :: Ev_led_update ::
                sampling_calls sampled_inputs boot_world ++ lifecycle_calls boot_world ++
                [Ev_log_update; Ev_config_update])%list /\
    protocolState w' = EMPTY /\ apiCall w' = NONE /\
    rx w' = [] /\ tx w' = "" /\
    conn w' = Listening.
Proof.
  apply (idle_pass plain_formats sampled_inputs 0 boot_world). reflexivity.
Defined.

(** X14 on a GET request. *)
Lemma request_pass_skips_write_backs_witness :
  exists rest,
    trace (world_of (main_loop_body plain_formats sampled_inputs 9 (in_state EMPTY GET_lines))) =
      ([] ++ Ev_wdt_reset :: Ev_led_update ::
       sampling_calls sampled_inputs (in_state EMPTY GET_lines) ++
       lifecycle_calls (in_state EMPTY GET_lines) ++ rest)%list /\
    Forall (fun e => request_event e \/ e = Ev_socket_disconnect SERVER_SOCKET) rest /\
    ~ In Ev_log_update rest /\ ~ In Ev_config_update rest.
Proof.
  apply (request_pass_skips_write_backs plain_formats sampled_inputs 9
           (in_state EMPTY GET_lines)).
  reflexivity.
Defined.

(** X17 after a GET request. *)
Lemma socket_reopened_after_request_witness :
  exists w2,
    main_loop_body plain_formats sampled_inputs 0
      (world_of (main_loop_body plain_formats sampled_inputs 9 (in_state EMPTY GET_lines)))
      = Done w2 /\
    conn w2 = Listening.
Proof.
  destruct (socket_reopened_after_request plain_formats sampled_inputs 9 sampled_inputs 0
              (in_state EMPTY GET_lines)
              (world_of (main_loop_body plain_formats sampled_inputs 9
                           (in_state EMPTY GET_lines))))
    as (w2 & H & Hc & _).
  - reflexivity.
  - vm_compute. reflexivity.
  - exists w2. split; [exact H | exact Hc].
Defined.

(** X18 on a GET request, timer 1 done in the same pass. *)
Lemma GET_request_answered_and_closed_witness :
  exists w',
    main_loop_body plain_formats sampled_inputs 9 (in_state EMPTY GET_lines) = Done w' /\
    tx w' = "" ++ "HTTP/1.1 200 OK" ++ "Content-Type: application/vnd.api+json" ++
            "Connection: close" ++ CRLF ++ CRLF ++
            json_head plain_formats (after_sampling sampled_inputs (in_state EMPTY GET_lines)) ++
            log_array_text plain_formats
              (after_sampling sampled_inputs (in_state EMPTY GET_lines)) ++ "]}" ++ CRLF /\
    protocolState w' = EMPTY /\ rx w' = [] /\ conn w' = Closed.
Proof.
  apply (GET_request_answered_and_closed plain_formats sampled_inputs 9
           (in_state EMPTY GET_lines)
           (mkRequest "GET /vpd HTTP/1.1" ["Host: x"] None)).
  - split; [vm_compute; discriminate |]. split; repeat constructor. discriminate.
  - left. discriminate.
  - reflexivity.
  - reflexivity.
  - reflexivity.
  - vm_compute. discriminate.
  - simpl. lia.
  - simpl. lia.
Defined.

(** X19 on a PUT request with a body. *)
Lemma PUT_DELETE_request_closed_unanswered_witness :
  exists w',
    main_loop_body plain_formats sampled_inputs 9 (in_state EMPTY PUT_lines) = Done w' /\
    tx w' = "" /\
    protocolState w' = EMPTY /\ rx w' = [] /\ conn w' = Closed.
Proof.
  apply (PUT_DELETE_request_closed_unanswered plain_formats sampled_inputs 9
           (in_state EMPTY PUT_lines)
           (mkRequest "PUT /vpd HTTP/1.1" ["Host: x"] (Some ["tcrit_hi=100"]))).
  - split; [vm_compute; discriminate |]. split; repeat constructor; discriminate.
  - left. discriminate.
  - vm_compute. discriminate.
  - reflexivity.
  - reflexivity.
  - simpl. lia.
Defined.

(** X20 on a run of two passes, a GET request arriving before the first. *)
Lemma watchdog_reset_once_per_pass_witness :
  watchdog_resets
    (world_of (main_loop plain_formats 9
                 [mkTick sampled_inputs GET_lines; mkTick sampled_inputs []] boot_world)) =
  (watchdog_resets boot_world + 2)%nat.
Proof.
  apply (watchdog_reset_once_per_pass plain_formats 9
           [mkTick sampled_inputs GET_lines; mkTick sampled_inputs []] boot_world
           (world_of (main_loop plain_formats 9
                        [mkTick sampled_inputs GET_lines; mkTick sampled_inputs []]
                        boot_world))).
  vm_compute. reflexivity.
Defined.

(** C3, what the first failing input does to the next connection.  After
    the GET request without header lines and body, the parser rests in
    [HEADER] with [apiCall = GET]; the lines of a PUT request that arrive
    before the next pass are dropped as header lines, and the dispatcher
    answers them with a second GET response. *)
Lemma bare_request_then_PUT_answered_as_GET :
  exists w',
    main_loop plain_formats 9
      [mkTick (mkInputs false 0 []) ["GET /vpd HTTP/1.1"; ""];
       mkTick (mkInputs false 0 []) ["PUT /vpd HTTP/1.1"; "Host: x"; ""]]
      boot_world = Done w' /\
    apiCall w' = GET /\
    tx w' = tx (world_of (getCall plain_formats 0 boot_world)) ++
            tx (world_of (getCall plain_formats 0 boot_world)).
Proof.
  eexists. split; [vm_compute; reflexivity |].
  split; vm_compute; reflexivity.
Qed.
